(** * pydumbinit: a signal-proxying init process

    A shallow embedding of [pydumbinit.py] and the properties of its signal
    rewrite table, forwarder, reaper and proxy loop.

    The module's globals ([SIGMAP], [IGNORED_SIGMAP], [child_pid],
    [use_setsid]) and the part of the operating system the program talks to
    form one [World]; every Python function is a computation in the monad
    [M], which threads the world and stops at a raised exception, at
    [sys.exit], or when the process image is replaced. *)

From Stdlib Require Import ZArith Ascii String.
From stdpp Require Import gmap strings list fin_maps.

Local Open Scope Z_scope.

(** ** Outcomes of running Python code *)

(** The exception classes that the program can meet. *)
Inductive exn : Type :=
  | ValueError
  | TypeError
  | KeyError
  | AssertionError
  | OSError
  | ChildProcessError.

#[global] Instance exn_eq_dec : EqDecision exn.
Proof. solve_decision. Defined.

(** Why a computation stopped without returning a value. *)
Inductive halt : Type :=
  | Raised (e : exn)                                (* uncaught exception *)
  | SysExit (code : Z)                              (* sys.exit(code) *)
  | Execve (program : string) (args : list string)  (* image replaced *)
  | Blocked                                         (* waits in sigwait *)
  | OutOfFuel.                                      (* loop bound of the model *)

Inductive outcome (A : Type) : Type :=
  | Ret (a : A)
  | Halt (h : halt).
Arguments Ret {A} a.
Arguments Halt {A} h.

(** ** What the program does to the outside *)

Inductive level : Type := INFO | WARNING | ERROR.

(** One constructor per log line of the source, with the values it prints. *)
Inductive message : Type :=
  | MsgTranslating (signum res : Z)
  | MsgForwarded (signum : Z)
  | MsgNotForwarding (signum : Z)
  | MsgReceived (signum : Z)
  | MsgIgnoringTty (signum : Z)
  | MsgChildExited (killed_pid exit_status : Z)
  | MsgChildTerminated (killed_pid sig : Z)
  | MsgGoodbye (exit_status : Z)
  | MsgSuspending
  | MsgIncorrectRewrite
  | MsgUnableToDetach
  | MsgDetachedLeader
  | MsgDetachedNotLeader
  | MsgUnableToFork
  | MsgSpawned (pid : Z).

Inductive event : Type :=
  | Log (l : level) (m : message)   (* logger.info / warn / error *)
  | Kill (pid sig : Z)              (* os.kill(pid, sig) *)
  | Handler (signum : Z)            (* signal.signal(signum, dummy) *)
  | Setsid.                         (* os.setsid() *)

(** ** The world: module globals and the kernel *)

Record Globals : Type := mkGlobals {
  SIGMAP : gmap Z Z;
  (* entries of the same dict under str keys; only the assignment in
     parse_rewrite_signum could create one *)
  SIGMAP_str : gmap string string;
  (* the flags are only tested for truth; the 1 stored by run is true *)
  IGNORED_SIGMAP : gmap Z bool;
  child_pid : Z;
  use_setsid : Z
}.

Record Kernel : Type := mkKernel {
  k_pid : Z;                     (* os.getpid() *)
  k_sid : Z;                     (* os.getsid(0) *)
  k_ioctl : option Z;            (* ioctl(0, TIOCNOTTY); None: OSError *)
  k_fork : option Z;             (* os.fork(); None: OSError *)
  k_exec_ok : bool;              (* whether os.execvp finds the program *)
  k_kill_ok : Z -> Z -> bool;    (* whether os.kill(pid, sig) succeeds *)
  k_zombies : list (Z * Z);      (* dead children not yet waited for *)
  k_running : list Z             (* children that have not terminated *)
}.

Record World : Type := mkWorld {
  globals : Globals;
  kernel : Kernel;
  trace : list event
}.

Definition set_SIGMAP (m : gmap Z Z) (w : World) : World :=
  let g := globals w in
  mkWorld (mkGlobals m (SIGMAP_str g) (IGNORED_SIGMAP g) (child_pid g) (use_setsid g))
          (kernel w) (trace w).

Definition set_SIGMAP_str (m : gmap string string) (w : World) : World :=
  let g := globals w in
  mkWorld (mkGlobals (SIGMAP g) m (IGNORED_SIGMAP g) (child_pid g) (use_setsid g))
          (kernel w) (trace w).

Definition set_IGNORED_SIGMAP (m : gmap Z bool) (w : World) : World :=
  let g := globals w in
  mkWorld (mkGlobals (SIGMAP g) (SIGMAP_str g) m (child_pid g) (use_setsid g))
          (kernel w) (trace w).

Definition set_children (zs : list (Z * Z)) (rs : list Z) (w : World) : World :=
  let k := kernel w in
  mkWorld (globals w)
          (mkKernel (k_pid k) (k_sid k) (k_ioctl k) (k_fork k) (k_exec_ok k)
                    (k_kill_ok k) zs rs)
          (trace w).

Definition emit (e : event) (w : World) : World :=
  mkWorld (globals w) (kernel w) (trace w ++ [e]).

(** ** The monad *)

Definition M (A : Type) : Type := World -> outcome A * World.

Definition ret {A} (a : A) : M A := fun w => (Ret a, w).

Definition bind {A B} (m : M A) (k : A -> M B) : M B :=
  fun w =>
    match m w with
    | (Ret a, w') => k a w'
    | (Halt h, w') => (Halt h, w')
    end.

Definition stop {A} (h : halt) : M A := fun w => (Halt h, w).

Definition raise {A} (e : exn) : M A := stop (Raised e).

Definition gets {A} (f : World -> A) : M A := fun w => (Ret (f w), w).

Definition modify (f : World -> World) : M unit := fun w => (Ret tt, f w).

(** [try: body except e: handler]. *)
Definition try_except {A} (body : M A) (e : exn) (handler : M A) : M A :=
  fun w =>
    match body w with
    | (Halt (Raised e'), w') =>
        if bool_decide (e' = e) then handler w' else (Halt (Raised e'), w')
    | r => r
    end.

Declare Scope py_scope.
Delimit Scope py_scope with py.
Notation "x <- m ;; k" := (bind m (fun x => k))
  (at level 100, m at next level, right associativity) : py_scope.
Notation "m ;; k" := (bind m (fun _ => k))
  (at level 100, right associativity) : py_scope.
Local Open Scope py_scope.

(** ** Constants

    The signal numbers are those of Linux, the numbering that
    [register_signals] assumes when it skips 9 and 19. *)

Definition MAXSIG : Z := 31.

Definition SIGHUP : Z := 1.
Definition SIGKILL : Z := 9.
Definition SIGTERM : Z := 15.
Definition SIGCHLD : Z := 17.
Definition SIGCONT : Z := 18.
Definition SIGSTOP : Z := 19.
Definition SIGTSTP : Z := 20.
Definition SIGTTIN : Z := 21.
Definition SIGTTOU : Z := 22.

(** [dict.fromkeys(range(lo, hi), v)]. *)
Definition fromkeys {V} (lo hi : Z) (v : V) : gmap Z V :=
  list_to_map ((fun k => (k, v)) <$> seqZ lo (hi - lo)).

(** The module as it is right after import. *)
Definition module_globals : Globals :=
  {| SIGMAP := fromkeys 1 (MAXSIG + 1) (-1);
     SIGMAP_str := ∅;
     IGNORED_SIGMAP := fromkeys 0 MAXSIG false;
     child_pid := -1;
     use_setsid := 1 |}.

(** ** Wait statuses

    [os.waitpid] returns the 16-bit status word of wait(2); the [os.W*]
    functions are the C macros of the same names. *)

Definition WTERMSIG (status : Z) : Z := Z.land status 127.
Definition WIFEXITED (status : Z) : bool := WTERMSIG status =? 0.
Definition WEXITSTATUS (status : Z) : Z := Z.shiftr (Z.land status 65280) 8.
Definition WIFSIGNALED (status : Z) : bool :=
  negb (WTERMSIG status =? 0) && negb (WTERMSIG status =? 127).

(** ** Primitives of the runtime and of the kernel *)

Definition logger_info (m : message) : M unit := modify (emit (Log INFO m)).
Definition logger_warn (m : message) : M unit := modify (emit (Log WARNING m)).
Definition logger_error (m : message) : M unit := modify (emit (Log ERROR m)).

Definition sys_exit {A} (code : Z) : M A := stop (SysExit code).

Definition py_assert (b : bool) : M unit :=
  if b then ret tt else raise AssertionError.

(** [d[key]]: a missing key raises KeyError. *)
Definition getitem {V} (d : World -> gmap Z V) (key : Z) : M V :=
  fun w =>
    match d w !! key with
    | Some v => (Ret v, w)
    | None => (Halt (Raised KeyError), w)
    end.

(** [os.kill(pid, sig)]: the call is made, and raises when the kernel
    refuses it (no such process, no permission, bad signal number). *)
Definition os_kill (pid sig : Z) : M unit :=
  fun w =>
    let w' := emit (Kill pid sig) w in
    if k_kill_ok (kernel w) pid sig then (Ret tt, w')
    else (Halt (Raised OSError), w').

Definition os_getpid : M Z := gets (fun w => k_pid (kernel w)).
Definition os_getsid0 : M Z := gets (fun w => k_sid (kernel w)).

(** [os.waitpid(-1, os.WNOHANG)]: the next dead child if there is one;
    (0, 0) if children exist but none is dead; ChildProcessError if the
    process has no child at all. *)
Definition os_waitpid_any_nohang : M (Z * Z) :=
  fun w =>
    match k_zombies (kernel w) with
    | z :: rest => (Ret z, set_children rest (k_running (kernel w)) w)
    | [] =>
        match k_running (kernel w) with
        | [] => (Halt (Raised ChildProcessError), w)
        | _ :: _ => (Ret (0, 0), w)
        end
    end.

(** [fcntl.ioctl(0, termios.TIOCNOTTY)]. *)
Definition fcntl_ioctl_TIOCNOTTY : M Z :=
  fun w =>
    match k_ioctl (kernel w) with
    | Some r => (Ret r, w)
    | None => (Halt (Raised OSError), w)
    end.

(** [os.fork()], seen from the process that the model follows. *)
Definition os_fork : M Z :=
  fun w =>
    match k_fork (kernel w) with
    | Some pid =>
        if 0 <? pid
        then (Ret pid,
              set_children (k_zombies (kernel w)) (k_running (kernel w) ++ [pid]) w)
        else (Ret pid, w)
    | None => (Halt (Raised OSError), w)
    end.

Definition os_setsid : M unit := modify (emit Setsid).

(** [os.execvp(program, args)] returns only by raising. *)
Definition os_execvp (program : string) (args : list string) : M unit :=
  fun w =>
    if k_exec_ok (kernel w) then (Halt (Execve program args), w)
    else (Halt (Raised OSError), w).

Definition signal_signal (signum : Z) : M unit := modify (emit (Handler signum)).

(** ** Python values in [parse_rewrite_signum]

    [str.split] yields strs, and the function compares them with ints. *)

Inductive pyval : Type :=
  | PyInt (n : Z)
  | PyStr (s : string).

(** [a < b] and [a > b]: ordering is defined between two ints and between
    two strs; between a str and an int it raises TypeError. *)
Definition py_lt (a b : pyval) : M bool :=
  match a, b with
  | PyInt x, PyInt y => ret (x <? y)
  | PyStr x, PyStr y => ret (String.ltb x y)
  | _, _ => raise TypeError
  end.

Definition py_gt (a b : pyval) : M bool :=
  match a, b with
  | PyInt x, PyInt y => ret (x >? y)
  | PyStr x, PyStr y => ret (String.ltb y x)
  | _, _ => raise TypeError
  end.

(** [a or b] on conditions: [b] is evaluated only when [a] is false. *)
Definition py_or (a b : M bool) : M bool :=
  x <- a ;; if x then ret true else b.

(** [s.split(sep)] for a separator of one character. *)
Fixpoint split_on (sep : ascii) (s : string) : list string :=
  match s with
  | EmptyString => [EmptyString]
  | String c rest =>
      if Ascii.eqb c sep then EmptyString :: split_on sep rest
      else match split_on sep rest with
           | hd :: tl => String c hd :: tl
           | [] => [String c EmptyString]
           end
  end.

(** Truth value of an int in a condition. *)
Definition truthy (n : Z) : bool := negb (n =? 0).

(** ** The program *)

Definition translate_signal (signum : Z) : M Z :=
  m <- gets (fun w => SIGMAP (globals w)) ;;
  if default (-1) (m !! signum) >? 0 then
    res <- getitem (fun w => SIGMAP (globals w)) signum ;;
    logger_info (MsgTranslating signum res) ;;
    ret res
  else
    ret signum.

Definition forward_signal (signum : Z) : M unit :=
  signum <- translate_signal signum ;;
  if negb (signum =? 0) then
    pid <- gets (fun w => child_pid (globals w)) ;;
    setsid <- gets (fun w => use_setsid (globals w)) ;;
    os_kill (if truthy setsid then - pid else pid) signum ;;
    logger_info (MsgForwarded signum)
  else
    logger_info (MsgNotForwarding signum).

(** The [while killed_pid > 0] loop of [handle_signal].  Every turn takes
    one dead child off the kernel's list, so the caller passes one more
    turn than there are dead children left. *)
Fixpoint reap_while (fuel : nat) (killed_pid status : Z) : M unit :=
  if killed_pid >? 0 then
    match fuel with
    | O => stop OutOfFuel
    | S fuel' =>
        exit_status <-
          (if WIFEXITED status then
             let exit_status := WEXITSTATUS status in
             logger_info (MsgChildExited killed_pid exit_status) ;;
             ret exit_status
           else
             py_assert (WIFSIGNALED status) ;;
             let exit_status := 128 + WTERMSIG status in
             logger_info (MsgChildTerminated killed_pid (exit_status - 128)) ;;
             ret exit_status) ;;
        tracked <- gets (fun w => child_pid (globals w)) ;;
        (if killed_pid =? tracked then
           forward_signal SIGTERM ;;
           logger_info (MsgGoodbye exit_status) ;;
           sys_exit exit_status
         else ret tt) ;;
        next <- os_waitpid_any_nohang ;;
        reap_while fuel' (fst next) (snd next)
    end
  else
    ret tt.

Definition is_tty_signal (signum : Z) : bool :=
  (signum =? SIGTSTP) || (signum =? SIGTTOU) || (signum =? SIGTTIN).

Definition handle_signal (signum : Z) : M unit :=
  logger_info (MsgReceived signum) ;;
  ignored <- getitem (fun w => IGNORED_SIGMAP (globals w)) signum ;;
  if ignored : bool then
    logger_info (MsgIgnoringTty signum) ;;
    flags <- gets (fun w => IGNORED_SIGMAP (globals w)) ;;
    modify (set_IGNORED_SIGMAP (<[signum := false]> flags))
  else if signum =? SIGCHLD then
    first <- os_waitpid_any_nohang ;;
    pending <- gets (fun w => k_zombies (kernel w)) ;;
    reap_while (S (length pending)) (fst first) (snd first)
  else
    forward_signal signum ;;
    if is_tty_signal signum then
      logger_info MsgSuspending ;;
      self <- os_getpid ;;
      os_kill self SIGSTOP
    else ret tt.

Definition parse_rewrite_signum (arg : string) : M unit :=
  try_except
    (match split_on ":"%char arg with
     | [signum; replacement] =>
         bad <- py_or (py_lt (PyStr signum) (PyInt 1))
                (py_or (py_gt (PyStr signum) (PyInt MAXSIG))
                (py_or (py_lt (PyStr replacement) (PyInt 0))
                       (py_gt (PyStr replacement) (PyInt MAXSIG)))) ;;
         if bad : bool then raise ValueError
         else
           table <- gets (fun w => SIGMAP_str (globals w)) ;;
           modify (set_SIGMAP_str (<[signum := replacement]> table))
     | _ => raise ValueError   (* the unpacking needs exactly two values *)
     end)
    ValueError
    (logger_error MsgIncorrectRewrite).

Definition set_rewrite_to_sigstop_if_not_defined (signum : Z) : M unit :=
  current <- getitem (fun w => SIGMAP (globals w)) signum ;;
  if current =? -1 then
    table <- gets (fun w => SIGMAP (globals w)) ;;
    modify (set_SIGMAP (<[signum := SIGSTOP]> table))
  else ret tt.

Fixpoint for_each {A} (l : list A) (body : A -> M unit) : M unit :=
  match l with
  | [] => ret tt
  | x :: rest => body x ;; for_each rest body
  end.

Definition register_signals : M unit :=
  for_each (seqZ 1 MAXSIG)
    (fun i => if (i =? 9) || (i =? 19) then ret tt else signal_signal i).

(** What happens while the process sleeps in [signal.sigwait]: some
    children die, then a signal of the awaited set arrives. *)
Record arrival : Type := mkArrival {
  a_died : list (Z * Z);   (* (pid, wait status) of the children that died *)
  a_signum : Z             (* the signal that sigwait returns *)
}.

Definition still_running (died : list (Z * Z)) (pid : Z) : bool :=
  negb (bool_decide (pid ∈ died.*1)).

(** [signal.sigwait(set(SIGMAP.keys()))], with the arrival it wakes up on. *)
Definition signal_sigwait (a : arrival) : M Z :=
  modify (fun w =>
            set_children (k_zombies (kernel w) ++ a_died a)
                         (List.filter (still_running (a_died a))
                                      (k_running (kernel w))) w) ;;
  ret (a_signum a).

(** The [while True] loop of [run], along the arrivals that the process
    lives to see; after the last one it stays asleep in [sigwait]. *)
Fixpoint proxy_loop (script : list arrival) : M Z :=
  match script with
  | [] => stop Blocked
  | a :: rest =>
      signum <- signal_sigwait a ;;
      handle_signal signum ;;
      proxy_loop rest
  end.

Definition run (program : string) (args : list string)
    (script : list arrival) : M Z :=
  register_signals ;;
  detached <- fcntl_ioctl_TIOCNOTTY ;;
  (if detached =? -1 then
     logger_warn MsgUnableToDetach
   else
     sid <- os_getsid0 ;;
     self <- os_getpid ;;
     if sid =? self then
       logger_info MsgDetachedLeader ;;
       flags <- gets (fun w => IGNORED_SIGMAP (globals w)) ;;
       modify (set_IGNORED_SIGMAP (<[SIGHUP := true]> flags)) ;;
       flags <- gets (fun w => IGNORED_SIGMAP (globals w)) ;;
       modify (set_IGNORED_SIGMAP (<[SIGCONT := true]> flags))
     else
       logger_info MsgDetachedNotLeader) ;;
  (* the function has no [global child_pid]: the assignment binds a local
     name, and the module's child_pid keeps its value *)
  child_pid <- os_fork ;;
  if child_pid <? 0 then
    logger_error MsgUnableToFork ;;
    ret 1
  else if child_pid =? 0 then
    setsid <- gets (fun w => use_setsid (globals w)) ;;
    (if truthy setsid then os_setsid else ret tt) ;;
    os_execvp program args ;;
    ret 2
  else
    logger_info (MsgSpawned child_pid) ;;
    proxy_loop script.

(** The states of the proxy loop, read off the outcome of [run]. *)
Inductive loop_state : Type :=
  | RUNNING
  | TERMINATED (code : Z)
  | OTHER (h : halt).

Definition state_of (o : outcome Z) : loop_state :=
  match o with
  | Halt Blocked => RUNNING
  | Halt (SysExit code) => TERMINATED code
  | Halt h => OTHER h
  | Ret code => TERMINATED code   (* main passes it to sys.exit *)
  end.

(** [test_rewrite_parsing] of the source. *)
Definition test_rewrite_parsing : M unit :=
  parse_rewrite_signum "5:6" ;;
  v <- getitem (fun w => SIGMAP (globals w)) 5 ;;
  py_assert (v =? 6).

(** [s.lstrip(c)], [s.rstrip(c)] and [s.strip(c)] for one character [c];
    [main] strips with "--", that is, the character '-'. *)
Fixpoint lstrip_char (c : ascii) (s : string) : string :=
  match s with
  | EmptyString => EmptyString
  | String c' rest => if Ascii.eqb c' c then lstrip_char c rest else s
  end.

Fixpoint rstrip_char (c : ascii) (s : string) : string :=
  match s with
  | EmptyString => EmptyString
  | String c' rest =>
      match rstrip_char c rest with
      | EmptyString =>
          if Ascii.eqb c' c then EmptyString else String c' EmptyString
      | kept => String c' kept
      end
  end.

Definition strip_char (c : ascii) (s : string) : string :=
  rstrip_char c (lstrip_char c s).

(** [main(args)]; the script is handed on to [run]. *)
Definition main (args : list string) (script : list arrival) : M unit :=
  match args with
  | [] => raise ValueError   (* [cmd, *args = args] needs one value *)
  | cmd :: args =>
      let cmd := strip_char "-" cmd in
      if String.eqb cmd "run" then
        match args with
        | [] => raise TypeError   (* run() lacks its argument [program] *)
        | program :: args =>
            code <- run program args script ;;
            sys_exit code
        end
      else ret tt
  end.

(** ** Vocabulary of the statements *)

(** Several events appended to the trace at once. *)
Definition emits (es : list event) (w : World) : World :=
  mkWorld (globals w) (kernel w) (trace w ++ es).

(** The effective signal that the table [m] gives for [signum]. *)
Definition effective (m : gmap Z Z) (signum : Z) : Z :=
  match m !! signum with
  | Some v => if v >? 0 then v else signum
  | None => signum
  end.

(** The process right after import, as PID 1 and leader of its session,
    with a kernel that lets every call succeed and forks child 100. *)
Definition quiet_kernel : Kernel :=
  {| k_pid := 1; k_sid := 1; k_ioctl := Some 0; k_fork := Some 100;
     k_exec_ok := true; k_kill_ok := fun _ _ => true;
     k_zombies := []; k_running := [] |}.

Definition boot : World := mkWorld module_globals quiet_kernel [].

(** What [translate_signal] logs. *)
Definition translation_log (m : gmap Z Z) (signum : Z) : list event :=
  match m !! signum with
  | Some v => if v >? 0 then [Log INFO (MsgTranslating signum v)] else []
  | None => []
  end.

(** The first argument of the [os.kill] in [forward_signal]. *)
Definition kill_target (g : Globals) : Z :=
  if truthy (use_setsid g) then - child_pid g else child_pid g.

(** The exit status that the reaper derives from a wait status. *)
Definition exit_status_of (status : Z) : Z :=
  if WIFEXITED status then WEXITSTATUS status else 128 + WTERMSIG status.

(** What the reaper logs for one dead child. *)
Definition reap_log (z : Z * Z) : event :=
  if WIFEXITED z.2 then Log INFO (MsgChildExited z.1 (WEXITSTATUS z.2))
  else Log INFO (MsgChildTerminated z.1 (WTERMSIG z.2)).

(** A dead child as waitpid reports it without WUNTRACED: a positive pid,
    and the status of a normal exit or of a death by signal. *)
Definition reported (z : Z * Z) : bool :=
  (0 <? z.1) && (WIFEXITED z.2 || WIFSIGNALED z.2).

(** [w] with the module's [child_pid] set to [pid], and [pid] among the
    running children: the world the reaper and the forwarder are written
    for. *)
Definition tracking (pid : Z) (w : World) : World :=
  let g := globals w in
  let k := kernel w in
  mkWorld (mkGlobals (SIGMAP g) (SIGMAP_str g) (IGNORED_SIGMAP g) pid (use_setsid g))
          (mkKernel (k_pid k) (k_sid k) (k_ioctl k) (k_fork k) (k_exec_ok k)
                    (k_kill_ok k) (k_zombies k) (k_running k ++ [pid]))
          (trace w).

(** The calls of [os.kill] in a trace, in order. *)
Definition kills (t : list event) : list (Z * Z) :=
  omap (fun e => match e with Kill pid sig => Some (pid, sig) | _ => None end) t.

(** A computation is inert when, started without a positive pid in the
    module's [child_pid], it neither calls [sys.exit] nor changes that
    variable. *)
Definition inert {A} (m : M A) : Prop :=
  forall w : World,
    child_pid (globals w) <= 0 ->
    (forall code, fst (m w) <> Halt (SysExit code)) /\
    child_pid (globals (snd (m w))) = child_pid (globals w).

(** [boot] seen from the other side of the fork. *)
Definition boot_in_child : World :=
  mkWorld module_globals
    {| k_pid := 100; k_sid := 1; k_ioctl := Some 0; k_fork := Some 0;
       k_exec_ok := true; k_kill_ok := fun _ _ => true;
       k_zombies := []; k_running := [] |}
    [].

(** A call of [os.kill] is aimed, in world [w], when it goes to the kill
    target of the module's globals, or stops the process itself. *)
Definition aimed (w : World) (call : Z * Z) : Prop :=
  call.1 = kill_target (globals w) \/ call = (k_pid (kernel w), SIGSTOP).

(** A computation is steady when it keeps the kill target and the pid of
    the process, only adds to the trace, and makes aimed calls only. *)
Definition steady {A} (m : M A) : Prop :=
  forall w : World,
    kill_target (globals (snd (m w))) = kill_target (globals w) /\
    k_pid (kernel (snd (m w))) = k_pid (kernel w) /\
    exists es, trace (snd (m w)) = trace w ++ es /\ Forall (aimed w) (kills es).

(** [n] dashes. *)
Fixpoint dashes (n : nat) : string :=
  match n with
  | O => EmptyString
  | S n' => String "-" (dashes n')
  end.

(** How often the character [c] occurs in [s]. *)
Fixpoint occurrences (c : ascii) (s : string) : nat :=
  match s with
  | EmptyString => O
  | String c' rest =>
      if Ascii.eqb c' c then S (occurrences c rest) else occurrences c rest
  end.

(** The signals that [register_signals] gives the handler [dummy]. *)
Definition handled_signals : list Z :=
  List.filter (fun i => negb ((i =? 9) || (i =? 19))) (seqZ 1 MAXSIG).

(** [boot] under a kernel that refuses every [os.kill]. *)
Definition boot_refused : World :=
  mkWorld module_globals
    {| k_pid := 1; k_sid := 1; k_ioctl := Some 0; k_fork := Some 100;
       k_exec_ok := true; k_kill_ok := fun _ _ => false;
       k_zombies := []; k_running := [] |}
    [].

(** Child 100 is tracked and dies with wait status [st], between the
    deaths of two other children; none is left running. *)
Definition deathbed (st : Z) (w : World) : World :=
  set_children [(101, 0); (100, st); (102, 9)] [] (tracking 100 w).

(** What the turn of the reaper's loop for the tracked child leaves behind:
    [seen] are the events up to the forwarding, [pst] is the wait status of
    the child, [rest] the dead children that come after it. *)
Definition last_turn (w : World) (seen : list event) (pst : Z)
    (rest : list (Z * Z)) : outcome unit * World :=
  let eff := effective (SIGMAP (globals w)) SIGTERM in
  let target := kill_target (globals w) in
  let sent := seen ++ translation_log (SIGMAP (globals w)) SIGTERM
                   ++ [Kill target eff] in
  if k_kill_ok (kernel w) target eff then
    (Halt (SysExit (exit_status_of pst)),
     set_children rest (k_running (kernel w))
       (emits (sent ++ [Log INFO (MsgForwarded eff);
                        Log INFO (MsgGoodbye (exit_status_of pst))]) w))
  else
    (Halt (Raised OSError),
     set_children rest (k_running (kernel w)) (emits sent w)).

(** A way of stopping that is an uncaught exception or [sys.exit]. *)
Definition raised_or_exit (h : halt) : Prop :=
  (exists e, h = Raised e) \/ (exists code, h = SysExit code).

(** [boot] without a controlling terminal: the ioctl raises. *)
Definition boot_no_tty : World :=
  mkWorld module_globals
    {| k_pid := 1; k_sid := 1; k_ioctl := None; k_fork := Some 100;
       k_exec_ok := true; k_kill_ok := fun _ _ => true;
       k_zombies := []; k_running := [] |}
    [].

(** [boot] with an [os.fork] that answers -1. *)
Definition boot_fork_failed : World :=
  mkWorld module_globals
    {| k_pid := 1; k_sid := 1; k_ioctl := Some 0; k_fork := Some (-1);
       k_exec_ok := true; k_kill_ok := fun _ _ => true;
       k_zombies := []; k_running := [] |}
    [].

(** * Properties *)

(** ** Worlds and computations *)

Lemma emit_emits e w : emit e w = emits [e] w.
Proof. reflexivity. Qed.

Lemma emits_emits es1 es2 w : emits es2 (emits es1 w) = emits (es1 ++ es2) w.
Proof. unfold emits; simpl. by rewrite app_assoc. Qed.

Lemma emits_nil w : emits [] w = w.
Proof. destruct w; unfold emits; simpl. by rewrite app_nil_r. Qed.

Create HintDb py_ops.
#[local] Hint Unfold bind ret stop raise gets modify sys_exit py_assert
  logger_info logger_warn logger_error getitem os_kill os_getpid os_getsid0
  signal_signal os_setsid : py_ops.

Ltac py_step := autounfold with py_ops; simpl.

(** ** The rewrite table *)

Lemma keys_of_pairing {V} (v : V) (l : list Z) :
  ((fun k => (k, v)) <$> l).*1 = l.
Proof. induction l as [|x l IH]; [done | by simpl; f_equal]. Qed.

Lemma fromkeys_lookup {V} (lo hi : Z) (v : V) (k : Z) :
  fromkeys lo hi v !! k = if bool_decide (lo <= k < hi) then Some v else None.
Proof.
  unfold fromkeys. case_bool_decide as Hk.
  - apply elem_of_list_to_map.
    + rewrite keys_of_pairing. apply NoDup_seqZ.
    + apply list_elem_of_fmap. exists k. split; [done|].
      apply elem_of_seqZ. lia.
  - apply not_elem_of_list_to_map. rewrite keys_of_pairing.
    intros Hin. apply elem_of_seqZ in Hin. lia.
Qed.

Lemma module_table_untouched (signum : Z) :
  SIGMAP module_globals !! signum = None \/
  SIGMAP module_globals !! signum = Some (-1).
Proof. simpl. rewrite fromkeys_lookup. case_bool_decide; auto. Qed.

Lemma translate_signal_eq signum w :
  translate_signal signum w =
    (Ret (effective (SIGMAP (globals w)) signum),
     match SIGMAP (globals w) !! signum with
     | Some v =>
         if v >? 0 then emits [Log INFO (MsgTranslating signum v)] w else w
     | None => w
     end).
Proof.
  unfold translate_signal, effective. py_step.
  destruct (SIGMAP (globals w) !! signum) as [v|] eqn:E; simpl; [|done].
  destruct (v >? 0); [|done]. by rewrite E.
Qed.

(** C5. A signal number without an explicit rewrite entry (no key in the
    table, or the initial value -1 under its key) is translated to itself,
    and nothing else happens. *)
Theorem translate_signal_default (signum : Z) (w : World) :
  SIGMAP (globals w) !! signum = None \/
  SIGMAP (globals w) !! signum = Some (-1) ->
  translate_signal signum w = (Ret signum, w).
Proof.
  intros H. rewrite translate_signal_eq. unfold effective.
  destruct H as [-> | ->]; done.
Qed.

Lemma translate_signal_default_witness :
  (SIGMAP (globals boot) !! 5 = None \/ SIGMAP (globals boot) !! 5 = Some (-1)) /\
  translate_signal 5 boot = (Ret 5, boot).
Proof.
  assert (H : SIGMAP (globals boot) !! 5 = None \/
              SIGMAP (globals boot) !! 5 = Some (-1))
    by (right; vm_compute; reflexivity).
  split; [exact H|]. exact (translate_signal_default 5 boot H).
Defined.

(** In the table of a freshly imported module every signal passes through. *)
Lemma translate_signal_initially (signum : Z) (k : Kernel) (t : list event) :
  translate_signal signum (mkWorld module_globals k t) =
    (Ret signum, mkWorld module_globals k t).
Proof.
  rewrite translate_signal_eq. unfold effective.
  change (globals (mkWorld module_globals k t)) with module_globals.
  by destruct (module_table_untouched signum) as [-> | ->].
Qed.
(** C10. [translate_signal] returns a value for every integer and every
    table: it never raises (the subscript is only reached under a key that
    is present), it leaves globals and kernel as they are, and with no key
    for [signum], negative or above MAXSIG included, the value is [signum]. *)
Theorem translate_signal_total (signum : Z) (w : World) :
  exists res w',
    translate_signal signum w = (Ret res, w') /\
    globals w' = globals w /\
    kernel w' = kernel w /\
    res = match SIGMAP (globals w) !! signum with
          | Some v => if v >? 0 then v else signum
          | None => signum
          end.
Proof.
  rewrite translate_signal_eq. eexists _, _. split; [reflexivity|].
  unfold effective.
  destruct (SIGMAP (globals w) !! signum) as [v|]; [destruct (v >? 0)|]; done.
Qed.

(** The assertions of [test_translate_signal]. *)
Example test_translate_signal :
  fst (translate_signal 5 boot) = Ret 5 /\
  (let w := set_SIGMAP (<[14 := 3]> (SIGMAP (globals boot))) boot in
   fst (translate_signal 14 w) = Ret 3 /\
   fst (translate_signal (-1) w) = Ret (-1)).
Proof. vm_compute. done. Qed.

Lemma sigstop_default_eq (signum : Z) (w : World) :
  set_rewrite_to_sigstop_if_not_defined signum w =
    match SIGMAP (globals w) !! signum with
    | Some v =>
        if v =? -1
        then (Ret tt, set_SIGMAP (<[signum := SIGSTOP]> (SIGMAP (globals w))) w)
        else (Ret tt, w)
    | None => (Halt (Raised KeyError), w)
    end.
Proof.
  unfold set_rewrite_to_sigstop_if_not_defined. py_step.
  destruct (SIGMAP (globals w) !! signum) as [v|]; [|done].
  by destruct (v =? -1).
Qed.

(** C9. [set_rewrite_to_sigstop_if_not_defined] writes SIGSTOP under
    [signum] exactly when the entry there is the initial -1, keeps every
    other entry, and raises KeyError when [signum] is no key of the table;
    running it twice in a row is the same as running it once. *)
Theorem sigstop_default_only_if_undefined (signum : Z) (w : World) :
  set_rewrite_to_sigstop_if_not_defined signum w =
    match SIGMAP (globals w) !! signum with
    | Some v =>
        if v =? -1
        then (Ret tt, set_SIGMAP (<[signum := SIGSTOP]> (SIGMAP (globals w))) w)
        else (Ret tt, w)
    | None => (Halt (Raised KeyError), w)
    end /\
  (set_rewrite_to_sigstop_if_not_defined signum ;;
   set_rewrite_to_sigstop_if_not_defined signum) w =
    set_rewrite_to_sigstop_if_not_defined signum w.
Proof.
  split; [apply sigstop_default_eq|].
  unfold bind at 1. rewrite (sigstop_default_eq signum w).
  destruct (SIGMAP (globals w) !! signum) as [v|] eqn:E; [|done].
  destruct (v =? -1) eqn:Ev.
  - rewrite sigstop_default_eq. simpl. by rewrite lookup_insert_eq.
  - rewrite sigstop_default_eq, E, Ev. done.
Qed.

(** ** The forwarder *)

Lemma translate_signal_emits signum w :
  translate_signal signum w =
    (Ret (effective (SIGMAP (globals w)) signum),
     emits (translation_log (SIGMAP (globals w)) signum) w).
Proof.
  rewrite translate_signal_eq. unfold translation_log.
  destruct (SIGMAP (globals w) !! signum) as [v|]; [destruct (v >? 0)|];
    by rewrite ?emits_nil.
Qed.

Lemma forward_signal_eq signum w :
  forward_signal signum w =
    let eff := effective (SIGMAP (globals w)) signum in
    let target := kill_target (globals w) in
    let said := translation_log (SIGMAP (globals w)) signum in
    if eff =? 0 then
      (Ret tt, emits (said ++ [Log INFO (MsgNotForwarding eff)]) w)
    else if k_kill_ok (kernel w) target eff then
      (Ret tt, emits (said ++ [Kill target eff; Log INFO (MsgForwarded eff)]) w)
    else
      (Halt (Raised OSError), emits (said ++ [Kill target eff]) w).
Proof.
  unfold forward_signal. unfold bind at 1. rewrite translate_signal_emits.
  simpl. destruct (effective _ signum =? 0) eqn:E; simpl.
  - unfold logger_info, modify. by rewrite emit_emits, emits_emits.
  - py_step. fold (kill_target (globals w)).
    destruct (k_kill_ok _ _ _); simpl;
      by rewrite !emit_emits, !emits_emits, <- ?app_assoc.
Qed.

(** The table yields 0 for no signal but 0 itself. *)
Lemma effective_zero (m : gmap Z Z) (signum : Z) :
  effective m signum = 0 -> signum = 0.
Proof.
  unfold effective. destruct (m !! signum) as [v|]; [|done].
  destruct (v >? 0) eqn:E; [lia | done].
Qed.

(** An entry of 0 is read as no entry. *)
Lemma translate_signal_entry_zero (signum : Z) (w : World) :
  SIGMAP (globals w) !! signum = Some 0 ->
  translate_signal signum w = (Ret signum, w).
Proof. intros E. rewrite translate_signal_eq. unfold effective. by rewrite E. Qed.

(** The rewrite parser. *)

Lemma parse_rewrite_signum_eq (arg : string) (w : World) :
  parse_rewrite_signum arg w =
    match split_on ":" arg with
    | [_; _] => (Halt (Raised TypeError), w)
    | _ => (Ret tt, emits [Log ERROR MsgIncorrectRewrite] w)
    end.
Proof.
  unfold parse_rewrite_signum, try_except.
  destruct (split_on ":" arg) as [|a [|b [|c l]]]; try done.
Qed.

(** The parser changes neither the globals nor the kernel. *)
Lemma parse_rewrite_signum_keeps (arg : string) (w : World) :
  globals (snd (parse_rewrite_signum arg w)) = globals w /\
  kernel (snd (parse_rewrite_signum arg w)) = kernel w.
Proof.
  rewrite parse_rewrite_signum_eq.
  destruct (split_on ":" arg) as [|a [|b [|c l]]]; done.
Qed.

Lemma test_rewrite_parsing_raises :
  test_rewrite_parsing boot = (Halt (Raised TypeError), boot).
Proof.
  unfold test_rewrite_parsing, bind. by rewrite parse_rewrite_signum_eq.
Qed.

(** C2. With 0 stored under key 5, [translate_signal 5] answers 5, not 0,
    and [forward_signal 5] sends signal 5 to the kill target; and the
    parser never stores the pair: on "5:0" it raises TypeError. *)
Theorem suppress_entry_is_forwarded :
  let w := set_SIGMAP (<[5 := 0]> (SIGMAP (globals boot))) boot in
  translate_signal 5 w = (Ret 5, w) /\
  forward_signal 5 w =
    (Ret tt, emits [Kill 1 5; Log INFO (MsgForwarded 5)] w) /\
  parse_rewrite_signum "5:0" boot = (Halt (Raised TypeError), boot).
Proof.
  set (m := SIGMAP (globals boot)). intros w.
  assert (E : SIGMAP (globals w) !! 5 = Some 0) by apply lookup_insert_eq.
  split; [by apply translate_signal_entry_zero|]. split.
  - rewrite forward_signal_eq. unfold effective, translation_log.
    rewrite E. reflexivity.
  - by rewrite parse_rewrite_signum_eq.
Qed.

(** C3. On each of the four out-of-range pairs the parser raises TypeError
    to its caller and logs nothing; the table stays as it was. *)
Theorem out_of_range_rewrite_raises :
  parse_rewrite_signum "-1:5" boot = (Halt (Raised TypeError), boot) /\
  parse_rewrite_signum "32:5" boot = (Halt (Raised TypeError), boot) /\
  parse_rewrite_signum "5:-1" boot = (Halt (Raised TypeError), boot) /\
  parse_rewrite_signum "5:32" boot = (Halt (Raised TypeError), boot).
Proof. rewrite !parse_rewrite_signum_eq. repeat split. Qed.

(** ** The reaper *)

Ltac world_eq :=
  repeat match goal with
         | w : World |- _ => destruct w as [[] [] ?]
         end;
  unfold emits, emit, set_children, set_IGNORED_SIGMAP, set_SIGMAP in *;
  simpl in *; subst; rewrite <- ?app_assoc; simpl; try reflexivity.

(** One turn of the loop, by cases. *)
Lemma reap_while_unfold (fuel : nat) (p st : Z) (w : World) :
  0 < p ->
  reap_while (S fuel) p st w =
    if negb (WIFEXITED st || WIFSIGNALED st) then
      (Halt (Raised AssertionError), w)
    else
      let w1 := emits [reap_log (p, st)] w in
      if p =? child_pid (globals w) then
        match forward_signal SIGTERM w1 with
        | (Ret _, w2) =>
            (Halt (SysExit (exit_status_of st)),
             emits [Log INFO (MsgGoodbye (exit_status_of st))] w2)
        | (Halt h, w2) => (Halt h, w2)
        end
      else
        match k_zombies (kernel w) with
        | z :: rest =>
            reap_while fuel z.1 z.2 (set_children rest (k_running (kernel w)) w1)
        | [] =>
            match k_running (kernel w) with
            | [] => (Halt (Raised ChildProcessError), w1)
            | _ :: _ => (Ret tt, w1)
            end
        end.
Proof.
  intros Hp. simpl. replace (p >? 0) with true by lia.
  unfold reap_log, exit_status_of. simpl.
  destruct (WIFEXITED st) eqn:Ex; simpl.
  - py_step. rewrite emit_emits.
    destruct (p =? child_pid (globals w)); simpl.
    + destruct (forward_signal SIGTERM _) as [[[]|h] w2]; done.
    + unfold os_waitpid_any_nohang. simpl.
      destruct (k_zombies (kernel w)) as [|z rest]; simpl; [|done].
      destruct (k_running (kernel w)); simpl; [done|].
      destruct fuel; done.
  - destruct (WIFSIGNALED st) eqn:Sg; py_step; [|done].
    replace (128 + WTERMSIG st - 128) with (WTERMSIG st) by lia.
    rewrite emit_emits.
    destruct (p =? child_pid (globals w)); simpl.
    + destruct (forward_signal SIGTERM _) as [[[]|h] w2]; done.
    + unfold os_waitpid_any_nohang. simpl.
      destruct (k_zombies (kernel w)) as [|z rest]; simpl; [|done].
      destruct (k_running (kernel w)); simpl; [done|].
      destruct fuel; done.
Qed.

Lemma reap_while_done (fuel : nat) (p st : Z) (w : World) :
  p <= 0 -> reap_while fuel p st w = (Ret tt, w).
Proof. intros Hp. destruct fuel; simpl; replace (p >? 0) with false by lia; done. Qed.

Lemma forward_signal_keeps (signum : Z) (w : World) :
  globals (snd (forward_signal signum w)) = globals w /\
  kernel (snd (forward_signal signum w)) = kernel w.
Proof.
  rewrite forward_signal_eq. simpl.
  destruct (_ =? 0); [done|]. by destruct (k_kill_ok _ _ _).
Qed.

Lemma forward_signal_outcome (signum : Z) (w : World) :
  fst (forward_signal signum w) = Ret tt \/
  fst (forward_signal signum w) = Halt (Raised OSError).
Proof.
  rewrite forward_signal_eq. simpl.
  destruct (_ =? 0); [by left|]. destruct (k_kill_ok _ _ _); auto.
Qed.

(** The loop never runs out of turns when it is given one more than there
    are dead children. *)
Lemma reap_while_enough_fuel (fuel : nat) :
  forall (p st : Z) (w : World),
    (length (k_zombies (kernel w)) < fuel)%nat ->
    fst (reap_while fuel p st w) <> Halt OutOfFuel.
Proof.
  induction fuel as [|fuel IH]; intros p st w Hlen; [lia|].
  destruct (Z_lt_le_dec 0 p) as [Hp|Hp]; [|by rewrite reap_while_done].
  rewrite reap_while_unfold by done.
  destruct (negb _); [done|]. simpl.
  destruct (p =? child_pid (globals w)).
  - pose proof (forward_signal_outcome SIGTERM (emits [reap_log (p, st)] w)) as Ho.
    destruct (forward_signal SIGTERM _) as [[[]|h] w2]; simpl in *; [done|].
    destruct Ho as [Ho|Ho]; [done|]. by rewrite Ho.
  - destruct (k_zombies (kernel w)) as [|z rest] eqn:Ez.
    + by destruct (k_running (kernel w)).
    + apply IH. simpl in *. lia.
Qed.

(** The loop leaves the globals alone. *)
Lemma reap_while_keeps_globals (fuel : nat) :
  forall (p st : Z) (w : World),
    globals (snd (reap_while fuel p st w)) = globals w.
Proof.
  induction fuel as [|fuel IH]; intros p st w.
  - simpl. by destruct (p >? 0).
  - destruct (Z_lt_le_dec 0 p) as [Hp|Hp]; [|by rewrite reap_while_done].
    rewrite reap_while_unfold by done.
    destruct (negb _); [done|]. simpl.
    destruct (p =? child_pid (globals w)).
    + pose proof (forward_signal_keeps SIGTERM (emits [reap_log (p, st)] w)) as [Hg _].
      destruct (forward_signal SIGTERM _) as [[[]|h] w2]; simpl in *; done.
    + destruct (k_zombies (kernel w)) as [|z rest].
      * by destruct (k_running (kernel w)).
      * by rewrite IH.
Qed.

(** Without a positive pid in the module's [child_pid], the loop never
    reaches [sys.exit]. *)
Lemma reap_while_no_exit (fuel : nat) :
  forall (p st : Z) (w : World) (code : Z),
    child_pid (globals w) <= 0 ->
    fst (reap_while fuel p st w) <> Halt (SysExit code).
Proof.
  induction fuel as [|fuel IH]; intros p st w code Hc.
  - simpl. by destruct (p >? 0).
  - destruct (Z_lt_le_dec 0 p) as [Hp|Hp]; [|by rewrite reap_while_done].
    rewrite reap_while_unfold by done.
    destruct (negb _); [done|]. simpl.
    replace (p =? child_pid (globals w)) with false by lia.
    destruct (k_zombies (kernel w)) as [|z rest].
    + by destruct (k_running (kernel w)).
    + by apply IH.
Qed.

(** Dead children that are not the tracked one are taken off the kernel's
    list one after the other, each with its log line, until none is left. *)
Lemma reap_while_drains (zs : list (Z * Z)) :
  forall (fuel : nat) (p st : Z) (w : World),
    k_zombies (kernel w) = zs ->
    k_running (kernel w) <> [] ->
    Forall (fun z => reported z = true /\ z.1 <> child_pid (globals w))
           ((p, st) :: zs) ->
    (length zs < fuel)%nat ->
    reap_while fuel p st w =
      (Ret tt,
       set_children [] (k_running (kernel w))
                    (emits (reap_log <$> (p, st) :: zs) w)).
Proof.
  induction zs as [|z zs IH]; intros fuel p st w Hz Hr Hall Hlen;
    (destruct fuel as [|fuel]; [simpl in Hlen; lia|]);
    apply Forall_cons_1 in Hall as [[Hrep Hne] Hall];
    unfold reported in Hrep; simpl in Hrep, Hne;
    apply andb_true_iff in Hrep as [Hp Hst];
    rewrite reap_while_unfold by lia; rewrite Hst; simpl;
    replace (p =? child_pid (globals w)) with false by lia; rewrite Hz.
  - destruct (k_running (kernel w)) eqn:Er; [done|].
    f_equal. world_eq.
  - destruct z as [q sq]. simpl.
    rewrite IH; try done.
    + f_equal. world_eq.
    + simpl in *. lia.
Qed.

(** ** The signal handler *)

(** [handle_signal], by cases. *)
Lemma handle_signal_eq (signum : Z) (w : World) :
  handle_signal signum w =
    let w0 := emits [Log INFO (MsgReceived signum)] w in
    match IGNORED_SIGMAP (globals w) !! signum with
    | None => (Halt (Raised KeyError), w0)
    | Some true =>
        (Ret tt,
         set_IGNORED_SIGMAP (<[signum := false]> (IGNORED_SIGMAP (globals w)))
           (emits [Log INFO (MsgIgnoringTty signum)] w0))
    | Some false =>
        if signum =? SIGCHLD then
          match k_zombies (kernel w) with
          | z :: rest =>
              reap_while (S (length rest)) z.1 z.2
                         (set_children rest (k_running (kernel w)) w0)
          | [] =>
              match k_running (kernel w) with
              | [] => (Halt (Raised ChildProcessError), w0)
              | _ :: _ => (Ret tt, w0)
              end
          end
        else
          match forward_signal signum w0 with
          | (Ret _, w1) =>
              if is_tty_signal signum then
                os_kill (k_pid (kernel w1)) SIGSTOP
                        (emits [Log INFO MsgSuspending] w1)
              else (Ret tt, w1)
          | (Halt h, w1) => (Halt h, w1)
          end
    end.
Proof.
  unfold handle_signal. py_step. rewrite emit_emits.
  destruct (IGNORED_SIGMAP (globals w) !! signum) as [[]|]; simpl; [| |done].
  - by rewrite emit_emits.
  - destruct (signum =? SIGCHLD); simpl.
    + unfold os_waitpid_any_nohang. simpl.
      destruct (k_zombies (kernel w)) as [|z rest]; simpl; [|done].
      destruct (k_running (kernel w)); done.
    + destruct (forward_signal signum _) as [[[]|h] w1]; simpl; [|done].
      destruct (is_tty_signal signum); simpl; [|done].
      by rewrite emit_emits.
Qed.

(** The handler always comes to an end: the reaper's loop bound is never
    the reason for its outcome. *)
Lemma handle_signal_terminates (signum : Z) (w : World) :
  fst (handle_signal signum w) <> Halt OutOfFuel.
Proof.
  rewrite handle_signal_eq. cbv zeta.
  destruct (IGNORED_SIGMAP (globals w) !! signum) as [[]|]; [done| |done].
  destruct (signum =? SIGCHLD).
  - destruct (k_zombies (kernel w)) as [|z rest].
    + by destruct (k_running (kernel w)).
    + apply reap_while_enough_fuel. simpl. lia.
  - pose proof (forward_signal_outcome signum
                  (emits [Log INFO (MsgReceived signum)] w)) as Ho.
    destruct (forward_signal signum _) as [[[]|h] w1]; simpl in *.
    + destruct (is_tty_signal signum); [|done].
      unfold os_kill. by destruct (k_kill_ok _ _ _).
    + destruct Ho as [Ho|Ho]; [done|]. by rewrite Ho.
Qed.

(** The handler writes to one global only, [IGNORED_SIGMAP]. *)
Lemma handle_signal_keeps (signum : Z) (w : World) :
  let g' := globals (snd (handle_signal signum w)) in
  SIGMAP g' = SIGMAP (globals w) /\
  child_pid g' = child_pid (globals w) /\
  use_setsid g' = use_setsid (globals w).
Proof.
  rewrite handle_signal_eq. cbv zeta.
  destruct (IGNORED_SIGMAP (globals w) !! signum) as [[]|]; [done| |done].
  destruct (signum =? SIGCHLD).
  - destruct (k_zombies (kernel w)) as [|z rest].
    + by destruct (k_running (kernel w)).
    + by rewrite reap_while_keeps_globals.
  - pose proof (forward_signal_keeps signum
                  (emits [Log INFO (MsgReceived signum)] w)) as [Hg _].
    destruct (forward_signal signum _) as [[[]|h] w1]; simpl in *.
    + destruct (is_tty_signal signum); [|by simpl; rewrite Hg].
      unfold os_kill. destruct (k_kill_ok _ _ _); simpl; by rewrite Hg.
    + by simpl; rewrite Hg.
Qed.

(** The handler arms no flag: one that is set afterwards was set before. *)
Lemma handle_signal_never_arms (signum key : Z) (w : World) :
  IGNORED_SIGMAP (globals (snd (handle_signal signum w))) !! key = Some true ->
  IGNORED_SIGMAP (globals w) !! key = Some true.
Proof.
  rewrite handle_signal_eq. cbv zeta.
  destruct (IGNORED_SIGMAP (globals w) !! signum) as [[]|] eqn:E; [|  |done].
  - simpl. destruct (decide (signum = key)) as [->|Hne].
    + by rewrite lookup_insert_eq.
    + by rewrite lookup_insert_ne.
  - destruct (signum =? SIGCHLD).
    + destruct (k_zombies (kernel w)) as [|z rest].
      * by destruct (k_running (kernel w)).
      * by rewrite reap_while_keeps_globals.
    + pose proof (forward_signal_keeps signum
                    (emits [Log INFO (MsgReceived signum)] w)) as [Hg _].
      destruct (forward_signal signum _) as [[[]|h] w1]; simpl in *.
      * destruct (is_tty_signal signum); [|by simpl; rewrite Hg].
        unfold os_kill. destruct (k_kill_ok _ _ _); simpl; by rewrite Hg.
      * by simpl; rewrite Hg.
Qed.

(** ** The proxy loop *)

Lemma proxy_loop_cons (a : arrival) (rest : list arrival) (w : World) :
  proxy_loop (a :: rest) w =
    match handle_signal (a_signum a)
            (set_children (k_zombies (kernel w) ++ a_died a)
               (List.filter (still_running (a_died a)) (k_running (kernel w)))
               w) with
    | (Ret _, w') => proxy_loop rest w'
    | (Halt h, w') => (Halt h, w')
    end.
Proof. reflexivity. Qed.

(** C4. A SIGCHLD that stands for any number of deaths, none of them the
    tracked child, while some child is still running: the handler waits for
    every dead child (one log line each, none left pending), signals nobody,
    and returns, so that the loop goes back to [sigwait] and stays RUNNING. *)
Theorem coalesced_deaths_are_drained
    (deaths : list (Z * Z)) (rest : list arrival) (w : World) :
  IGNORED_SIGMAP (globals w) !! SIGCHLD = Some false ->
  List.filter (still_running deaths) (k_running (kernel w)) <> [] ->
  Forall (fun z => reported z = true /\ z.1 <> child_pid (globals w))
         (k_zombies (kernel w) ++ deaths) ->
  let w' :=
    set_children [] (List.filter (still_running deaths) (k_running (kernel w)))
      (emits (Log INFO (MsgReceived SIGCHLD)
                :: (reap_log <$> k_zombies (kernel w) ++ deaths)) w) in
  k_zombies (kernel w') = [] /\
  proxy_loop (mkArrival deaths SIGCHLD :: rest) w = proxy_loop rest w' /\
  state_of (fst (proxy_loop [mkArrival deaths SIGCHLD] w)) = RUNNING.
Proof.
  intros Hflag Hrun Hall w'.
  assert (Hh : handle_signal SIGCHLD
                 (set_children (k_zombies (kernel w) ++ deaths)
                    (List.filter (still_running deaths) (k_running (kernel w)))
                    w) = (Ret tt, w')).
  { rewrite handle_signal_eq. cbv zeta.
    replace (IGNORED_SIGMAP (globals (set_children _ _ w)) !! SIGCHLD)
      with (Some false) by done.
    replace (SIGCHLD =? SIGCHLD) with true by done.
    replace (k_zombies (kernel (set_children (k_zombies (kernel w) ++ deaths)
               (List.filter (still_running deaths) (k_running (kernel w))) w)))
      with (k_zombies (kernel w) ++ deaths) by done.
    replace (k_running (kernel (set_children (k_zombies (kernel w) ++ deaths)
               (List.filter (still_running deaths) (k_running (kernel w))) w)))
      with (List.filter (still_running deaths) (k_running (kernel w))) by done.
    subst w'. destruct (k_zombies (kernel w) ++ deaths) as [|[p st] zs] eqn:Ez.
    - destruct (List.filter _ _) eqn:Ef; [done|]. by f_equal.
    - rewrite (reap_while_drains zs); [| done | done | exact Hall | simpl; lia].
      f_equal. clear. world_eq. }
  split; [done|]. rewrite !proxy_loop_cons. simpl a_signum. simpl a_died.
  by rewrite Hh.
Qed.

Lemma coalesced_deaths_are_drained_witness :
  let deaths := [(101, 0); (102, 9); (103, 256)] in
  let w := tracking 100 boot in
  IGNORED_SIGMAP (globals w) !! SIGCHLD = Some false /\
  List.filter (still_running deaths) (k_running (kernel w)) <> [] /\
  Forall (fun z => reported z = true /\ z.1 <> child_pid (globals w))
         (k_zombies (kernel w) ++ deaths) /\
  state_of (fst (proxy_loop [mkArrival deaths SIGCHLD] w)) = RUNNING.
Proof.
  intros deaths w.
  assert (H1 : IGNORED_SIGMAP (globals w) !! SIGCHLD = Some false)
    by (vm_compute; reflexivity).
  assert (H2 : List.filter (still_running deaths) (k_running (kernel w)) <> [])
    by (vm_compute; discriminate).
  assert (H3 : Forall (fun z => reported z = true /\ z.1 <> child_pid (globals w))
                      (k_zombies (kernel w) ++ deaths))
    by (repeat constructor; vm_compute; discriminate).
  split; [exact H1|]. split; [exact H2|]. split; [exact H3|].
  exact (proj2 (proj2 (coalesced_deaths_are_drained deaths [] w H1 H2 H3))).
Defined.

(** The loop arms no flag either. *)
Lemma proxy_loop_never_arms (script : list arrival) :
  forall (key : Z) (w : World),
    IGNORED_SIGMAP (globals (snd (proxy_loop script w))) !! key = Some true ->
    IGNORED_SIGMAP (globals w) !! key = Some true.
Proof.
  induction script as [|a rest IH]; intros key w; [done|].
  rewrite proxy_loop_cons.
  set (ws := set_children _ _ w).
  pose proof (handle_signal_never_arms (a_signum a) key ws) as Hh.
  destruct (handle_signal (a_signum a) ws) as [[[]|h] w1]; simpl in *.
  - intros H. by apply Hh, IH.
  - exact Hh.
Qed.

(** C6. With the flag of SIGHUP (or SIGCONT) armed, the first such signal
    is only logged, and clears the flag, with no call of [os.kill]; the
    next one goes to [forward_signal] like any other signal; and nothing
    that the handler or the loop does later arms a flag again. *)
Theorem ignored_once_flag (signum : Z) (w : World) :
  signum = SIGHUP \/ signum = SIGCONT ->
  IGNORED_SIGMAP (globals w) !! signum = Some true ->
  let w1 :=
    set_IGNORED_SIGMAP (<[signum := false]> (IGNORED_SIGMAP (globals w)))
      (emits [Log INFO (MsgReceived signum); Log INFO (MsgIgnoringTty signum)] w) in
  handle_signal signum w = (Ret tt, w1) /\
  handle_signal signum w1 =
    forward_signal signum (emits [Log INFO (MsgReceived signum)] w1) /\
  (forall (script : list arrival) (key : Z) (w' : World),
      IGNORED_SIGMAP (globals (snd (proxy_loop script w'))) !! key = Some true ->
      IGNORED_SIGMAP (globals w') !! key = Some true).
Proof.
  intros Hs Harmed w1. split; [|split].
  - rewrite handle_signal_eq. cbv zeta. by rewrite Harmed, emits_emits.
  - rewrite handle_signal_eq. cbv zeta.
    replace (IGNORED_SIGMAP (globals w1) !! signum) with (Some false)
      by (symmetry; apply lookup_insert_eq).
    replace (signum =? SIGCHLD) with false by (destruct Hs; by subst).
    replace (is_tty_signal signum) with false by (destruct Hs; by subst).
    by destruct (forward_signal signum _) as [[[]|h] w2].
  - intros script key w'. apply proxy_loop_never_arms.
Qed.

(** The world after [run] has armed both flags. *)
Lemma ignored_once_flag_witness :
  let w := set_IGNORED_SIGMAP
             (<[SIGCONT := true]> (<[SIGHUP := true]> (IGNORED_SIGMAP (globals boot))))
             boot in
  IGNORED_SIGMAP (globals w) !! SIGHUP = Some true /\
  handle_signal SIGHUP w =
    (Ret tt,
     set_IGNORED_SIGMAP (<[SIGHUP := false]> (IGNORED_SIGMAP (globals w)))
       (emits [Log INFO (MsgReceived SIGHUP); Log INFO (MsgIgnoringTty SIGHUP)] w)).
Proof.
  intros w.
  assert (H : IGNORED_SIGMAP (globals w) !! SIGHUP = Some true)
    by (vm_compute; reflexivity).
  split; [exact H|].
  exact (proj1 (ignored_once_flag SIGHUP w (or_introl eq_refl) H)).
Defined.

(** C8. When a signal is forwarded (its flag is not armed, it is not
    SIGCHLD, and [forward_signal] returns), the handler then sends SIGSTOP
    to its own pid if the signal it received is SIGTSTP, SIGTTOU or
    SIGTTIN, whatever the table made of it; for every other signal it
    stops right after the forwarding. *)
Theorem tty_signal_stops_self (signum : Z) (w w1 : World) :
  IGNORED_SIGMAP (globals w) !! signum = Some false ->
  signum <> SIGCHLD ->
  forward_signal signum (emits [Log INFO (MsgReceived signum)] w) = (Ret tt, w1) ->
  handle_signal signum w =
    if bool_decide (signum = SIGTSTP \/ signum = SIGTTOU \/ signum = SIGTTIN)
    then os_kill (k_pid (kernel w)) SIGSTOP (emits [Log INFO MsgSuspending] w1)
    else (Ret tt, w1).
Proof.
  intros Hflag Hne Hfw.
  pose proof (forward_signal_keeps signum
                (emits [Log INFO (MsgReceived signum)] w)) as [_ Hk].
  rewrite handle_signal_eq. cbv zeta. rewrite Hflag.
  replace (signum =? SIGCHLD) with false by lia.
  rewrite Hfw in *. simpl in Hk. rewrite Hk.
  unfold is_tty_signal. case_bool_decide as Htty.
  - replace ((signum =? SIGTSTP) || (signum =? SIGTTOU) || (signum =? SIGTTIN))
      with true; [done|].
    symmetry. rewrite !orb_true_iff. lia.
  - replace ((signum =? SIGTSTP) || (signum =? SIGTTOU) || (signum =? SIGTTIN))
      with false; [done|].
    symmetry. apply not_true_iff_false. rewrite !orb_true_iff. lia.
Qed.

Lemma tty_signal_stops_self_witness :
  let w := set_SIGMAP (<[SIGTSTP := SIGTERM]> (SIGMAP (globals boot))) boot in
  let w1 := emits [Log INFO (MsgReceived SIGTSTP);
                   Log INFO (MsgTranslating SIGTSTP SIGTERM);
                   Kill 1 SIGTERM; Log INFO (MsgForwarded SIGTERM)] w in
  IGNORED_SIGMAP (globals w) !! SIGTSTP = Some false /\
  SIGTSTP <> SIGCHLD /\
  forward_signal SIGTSTP (emits [Log INFO (MsgReceived SIGTSTP)] w) = (Ret tt, w1) /\
  handle_signal SIGTSTP w =
    os_kill 1 SIGSTOP (emits [Log INFO MsgSuspending] w1).
Proof.
  intros w w1.
  assert (H1 : IGNORED_SIGMAP (globals w) !! SIGTSTP = Some false)
    by (vm_compute; reflexivity).
  assert (H2 : SIGTSTP <> SIGCHLD) by discriminate.
  assert (H3 : forward_signal SIGTSTP (emits [Log INFO (MsgReceived SIGTSTP)] w)
               = (Ret tt, w1)).
  { rewrite forward_signal_eq. unfold effective, translation_log.
    replace (SIGMAP (globals (emits [Log INFO (MsgReceived SIGTSTP)] w)) !! SIGTSTP)
      with (Some SIGTERM) by (symmetry; apply lookup_insert_eq).
    subst w1. by rewrite emits_emits. }
  split; [exact H1|]. split; [exact H2|]. split; [exact H3|].
  exact (tty_signal_stops_self SIGTSTP w w1 H1 H2 H3).
Defined.

(** ** The reaper and the tracked child *)

(** The exit statuses of the two examples: exit code 7, and death by
    signal 9. *)
Example exit_status_of_examples :
  exit_status_of (Z.shiftl 7 8) = 7 /\ exit_status_of 9 = 137.
Proof. split; reflexivity. Qed.

(** The loop works through the dead children before the tracked one and
    then exits with the status derived for it, if the SIGTERM it forwards
    first can be sent. *)
Lemma reap_while_reaches (before : list (Z * Z)) :
  forall (fuel : nat) (p st pid pst : Z) (after : list (Z * Z)) (w : World),
    k_zombies (kernel w) = before ++ (pid, pst) :: after ->
    child_pid (globals w) = pid ->
    Forall (fun z => reported z = true /\ z.1 <> pid) ((p, st) :: before) ->
    reported (pid, pst) = true ->
    k_kill_ok (kernel w) (kill_target (globals w))
              (effective (SIGMAP (globals w)) SIGTERM) = true ->
    (length before < fuel)%nat ->
    fst (reap_while (S fuel) p st w) = Halt (SysExit (exit_status_of pst)).
Proof.
  induction before as [|[q sq] before IH];
    intros fuel p st pid pst after w Hz Hc Hall Hrep Hkill Hlen;
    (destruct fuel as [|fuel]; [simpl in Hlen; lia|]);
    apply Forall_cons_1 in Hall as [[Hr Hne] Hall];
    unfold reported in Hr; simpl in Hr, Hne;
    apply andb_true_iff in Hr as [Hp Hst];
    rewrite reap_while_unfold by lia; rewrite Hst; cbv zeta;
    simpl negb; cbv iota;
    replace (p =? child_pid (globals w)) with false by lia; rewrite Hz;
    simpl app; cbv iota.
  - unfold reported in Hrep. simpl in Hrep.
    apply andb_true_iff in Hrep as [Hpid Hpst].
    rewrite reap_while_unfold by (simpl; lia). simpl fst. simpl snd.
    rewrite Hpst. simpl negb. cbv iota zeta.
    replace (pid =? child_pid (globals _)) with true by (simpl; lia).
    rewrite forward_signal_eq. cbv zeta.
    replace (effective _ SIGTERM =? 0) with false.
    + match goal with
      | |- context [k_kill_ok (kernel ?w2) (kill_target (globals ?w2))] =>
          change (k_kill_ok (kernel w2)) with (k_kill_ok (kernel w));
          change (globals w2) with (globals w)
      end.
      by rewrite Hkill.
    + symmetry. apply Z.eqb_neq. intros E. by apply effective_zero in E.
  - apply (IH fuel q sq pid pst after); try done. simpl in Hlen. lia.
Qed.

(** With the pid of the child in the module's [child_pid], the handler
    does what the reaper is meant to do: it exits with the child's status. *)
Lemma reaper_exits_with_child_status
    (before after : list (Z * Z)) (pid pst : Z) (w : World) :
  IGNORED_SIGMAP (globals w) !! SIGCHLD = Some false ->
  k_zombies (kernel w) = before ++ (pid, pst) :: after ->
  child_pid (globals w) = pid ->
  Forall (fun z => reported z = true /\ z.1 <> pid) before ->
  reported (pid, pst) = true ->
  k_kill_ok (kernel w) (kill_target (globals w))
            (effective (SIGMAP (globals w)) SIGTERM) = true ->
  fst (handle_signal SIGCHLD w) = Halt (SysExit (exit_status_of pst)).
Proof.
  intros Hflag Hz Hc Hall Hrep Hkill.
  rewrite handle_signal_eq. cbv zeta. rewrite Hflag.
  replace (SIGCHLD =? SIGCHLD) with true by done. rewrite Hz.
  destruct before as [|[q sq] before]; simpl app; cbv iota.
  - unfold reported in Hrep. simpl in Hrep.
    apply andb_true_iff in Hrep as [Hpid Hpst].
    rewrite reap_while_unfold by (simpl; lia). simpl fst. simpl snd.
    rewrite Hpst. simpl negb. cbv iota zeta.
    replace (pid =? child_pid (globals _)) with true by (simpl; lia).
    rewrite forward_signal_eq. cbv zeta.
    replace (effective _ SIGTERM =? 0) with false.
    + match goal with
      | |- context [k_kill_ok (kernel ?w2) (kill_target (globals ?w2))] =>
          change (k_kill_ok (kernel w2)) with (k_kill_ok (kernel w));
          change (globals w2) with (globals w)
      end.
      by rewrite Hkill.
    + symmetry. apply Z.eqb_neq. intros E. by apply effective_zero in E.
  - rewrite length_app. simpl length.
    replace (length before + S (length after))%nat
      with (S (length before + length after)) by lia.
    apply (reap_while_reaches before _ q sq pid pst after); try done. lia.
Qed.

Lemma reaper_exits_with_child_status_examples :
  let w st := set_children [(101, 0); (100, st); (102, 9)] [] (tracking 100 boot) in
  fst (handle_signal SIGCHLD (w (Z.shiftl 7 8))) = Halt (SysExit 7) /\
  fst (handle_signal SIGCHLD (w 9)) = Halt (SysExit 137).
Proof.
  split;
    [ refine (reaper_exits_with_child_status
                [(101, 0)] [(102, 9)] 100 (Z.shiftl 7 8) _ _ _ _ _ _ _)
    | refine (reaper_exits_with_child_status
                [(101, 0)] [(102, 9)] 100 9 _ _ _ _ _ _ _) ];
    try reflexivity; repeat constructor; vm_compute; discriminate.
Qed.

(** ** What [run] does with the pid of its child *)

Lemma inert_bind {A B} (m : M A) (k : A -> M B) :
  inert m -> (forall a, inert (k a)) -> inert (bind m k).
Proof.
  intros Hm Hk w Hw. unfold bind.
  destruct (Hm w Hw) as [Hexit Hpid].
  destruct (m w) as [[a|h] w1]; simpl in *.
  - destruct (Hk a w1) as [Hexit' Hpid']; [lia|].
    split; [done | by rewrite Hpid'].
  - split; [|done]. intros code E. apply (Hexit code). by inversion E.
Qed.

Lemma inert_ret {A} (a : A) : inert (ret a).
Proof. by intros w Hw. Qed.

Lemma inert_gets {A} (f : World -> A) : inert (gets f).
Proof. by intros w Hw. Qed.

Lemma inert_log (l : level) (m : message) : inert (modify (emit (Log l m))).
Proof. by intros w Hw. Qed.

Lemma inert_flags (f : gmap Z bool) : inert (modify (set_IGNORED_SIGMAP f)).
Proof. by intros w Hw. Qed.

Lemma inert_signal_signal (i : Z) : inert (signal_signal i).
Proof. by intros w Hw. Qed.

Lemma inert_ioctl : inert fcntl_ioctl_TIOCNOTTY.
Proof.
  intros w Hw. unfold fcntl_ioctl_TIOCNOTTY. by destruct (k_ioctl (kernel w)).
Qed.

Lemma inert_fork : inert os_fork.
Proof.
  intros w Hw. unfold os_fork.
  destruct (k_fork (kernel w)) as [pid|]; [by destruct (0 <? pid) | done].
Qed.

Lemma inert_setsid : inert os_setsid.
Proof. by intros w Hw. Qed.

Lemma inert_execvp (program : string) (args : list string) :
  inert (os_execvp program args).
Proof. intros w Hw. unfold os_execvp. by destruct (k_exec_ok (kernel w)). Qed.

Lemma inert_sigwait (a : arrival) : inert (signal_sigwait a).
Proof. by intros w Hw. Qed.

Lemma inert_for_each {A} (l : list A) (body : A -> M unit) :
  (forall x, inert (body x)) -> inert (for_each l body).
Proof.
  intros Hb. induction l as [|x l IH]; simpl.
  - apply inert_ret.
  - apply inert_bind; [apply Hb | intros _; apply IH].
Qed.

Lemma inert_handle_signal (signum : Z) : inert (handle_signal signum).
Proof.
  intros w Hw. split; [|apply handle_signal_keeps].
  intros code. rewrite handle_signal_eq. cbv zeta.
  destruct (IGNORED_SIGMAP (globals w) !! signum) as [[]|]; [done| |done].
  destruct (signum =? SIGCHLD).
  - destruct (k_zombies (kernel w)) as [|z rest].
    + by destruct (k_running (kernel w)).
    + by apply reap_while_no_exit.
  - pose proof (forward_signal_outcome signum
                  (emits [Log INFO (MsgReceived signum)] w)) as Ho.
    destruct (forward_signal signum _) as [[[]|h] w1]; simpl in *.
    + destruct (is_tty_signal signum); [|done].
      unfold os_kill. by destruct (k_kill_ok _ _ _).
    + destruct Ho as [Ho|Ho]; [done|]. by rewrite Ho.
Qed.

Lemma inert_proxy_loop (script : list arrival) : inert (proxy_loop script).
Proof.
  induction script as [|a rest IH]; simpl.
  - by intros w Hw.
  - apply inert_bind; [apply inert_sigwait|]. intros signum.
    apply inert_bind; [apply inert_handle_signal|]. intros _. apply IH.
Qed.

Create HintDb inert_db.
#[local] Hint Resolve inert_ret inert_gets inert_log inert_flags
  inert_signal_signal inert_ioctl inert_fork inert_setsid inert_execvp
  inert_sigwait inert_handle_signal inert_proxy_loop : inert_db.

Ltac inert_steps :=
  repeat first
    [ apply inert_bind; [|intros ?]
    | apply inert_for_each; intros ?
    | match goal with |- inert (if ?b then _ else _) => destruct b end
    | solve [auto with inert_db] ].

Lemma inert_run (program : string) (args : list string)
    (script : list arrival) : inert (run program args script).
Proof.
  unfold run, register_signals, logger_info, logger_warn, logger_error,
    os_getsid0, os_getpid.
  inert_steps.
Qed.

(** [run] never stores the pid of its child in the module's [child_pid],
    and so the process that it starts never ends by [sys.exit]. *)
Lemma run_never_exits (program : string) (args : list string)
    (script : list arrival) (w : World) :
  child_pid (globals w) = -1 ->
  child_pid (globals (snd (run program args script w))) = -1 /\
  forall code, fst (run program args script w) <> Halt (SysExit code).
Proof.
  intros Hc. destruct (inert_run program args script w) as [Hexit Hpid]; [lia|].
  split; [by rewrite Hpid | exact Hexit].
Qed.

(** C1. [run] forks child 100; the child exits with code 7, or is killed
    by signal 9, and SIGCHLD arrives.  The handler reaps it without
    recognising it, since the module's [child_pid] is still -1: the process
    does not exit with 7 or 137.  With no child left, the next [waitpid]
    raises ChildProcessError; with another child around, the loop stays
    RUNNING. *)
Theorem tracked_child_death_is_not_noticed :
  let died st := [mkArrival [(100, st)] SIGCHLD] in
  let crowded := set_children [] [50] boot in
  fst (run "sleep" ["100"] (died (Z.shiftl 7 8)) boot)
    = Halt (Raised ChildProcessError) /\
  fst (run "sleep" ["100"] (died 9) boot)
    = Halt (Raised ChildProcessError) /\
  state_of (fst (run "sleep" ["100"] (died (Z.shiftl 7 8)) crowded)) = RUNNING /\
  state_of (fst (run "sleep" ["100"] (died 9) crowded)) = RUNNING.
Proof. vm_compute. repeat split. Qed.

(** ** Where the forwarder sends *)

Lemma kills_app (t1 t2 : list event) : kills (t1 ++ t2) = kills t1 ++ kills t2.
Proof. apply omap_app. Qed.

Lemma kills_translation_log (m : gmap Z Z) (signum : Z) :
  kills (translation_log m signum) = [].
Proof.
  unfold translation_log. destruct (m !! signum) as [v|]; [|done].
  by destruct (v >? 0).
Qed.

(** [forward_signal], taken alone, calls [os.kill] once, with the effective
    signal, on the negated [child_pid] of the module if [use_setsid] is
    true and on [child_pid] itself if not. *)
Lemma forward_signal_sends (signum : Z) (w : World) :
  effective (SIGMAP (globals w)) signum <> 0 ->
  kills (trace (snd (forward_signal signum w))) =
    kills (trace w) ++
      [(if truthy (use_setsid (globals w))
        then - child_pid (globals w) else child_pid (globals w),
        effective (SIGMAP (globals w)) signum)].
Proof.
  intros Hne. rewrite forward_signal_eq. cbv zeta.
  replace (effective _ signum =? 0) with false by lia.
  fold (kill_target (globals w)).
  destruct (k_kill_ok _ _ _); simpl;
    by rewrite !kills_app, kills_translation_log.
Qed.

(** C7. [run] forks child 100 (which, with [use_setsid] true, makes itself
    leader of a new session before it execs), and then SIGTERM arrives: the
    one call of [os.kill] is on pid 1, as the module's [child_pid] is
    still -1; process group 100 gets nothing. *)
Theorem forwarded_signal_misses_child :
  fst (run "sleep" ["100"] [] boot_in_child) = Halt (Execve "sleep" ["100"]) /\
  last (trace (snd (run "sleep" ["100"] [] boot_in_child))) = Some Setsid /\
  state_of (fst (run "sleep" ["100"] [mkArrival [] SIGTERM] boot)) = RUNNING /\
  kills (trace (snd (run "sleep" ["100"] [mkArrival [] SIGTERM] boot)))
    = [(1, SIGTERM)].
Proof. vm_compute. repeat split. Qed.

(** ** Every call of [os.kill] that [run] makes *)

Lemma steady_quiet {A} (m : M A) (es : list event) :
  kills es = [] ->
  (forall w, globals (snd (m w)) = globals w /\
             k_pid (kernel (snd (m w))) = k_pid (kernel w) /\
             trace (snd (m w)) = trace w ++ es) ->
  steady m.
Proof.
  intros Hes Hm w. destruct (Hm w) as (Hg & Hp & Ht).
  rewrite Hg. split; [done|]. split; [done|].
  exists es. split; [done|]. rewrite Hes. constructor.
Qed.

Lemma steady_bind {A B} (m : M A) (k : A -> M B) :
  steady m -> (forall a, steady (k a)) -> steady (bind m k).
Proof.
  intros Hm Hk w. unfold bind.
  destruct (Hm w) as (Hg & Hp & es & Ht & Hes).
  destruct (m w) as [[a|h] w1]; simpl in *.
  - destruct (Hk a w1) as (Hg' & Hp' & es' & Ht' & Hes').
    rewrite Hg', Hp', Ht', Ht, Hg, Hp. split; [done|]. split; [done|].
    exists (es ++ es'). split; [by rewrite app_assoc|].
    rewrite kills_app. apply Forall_app. split; [done|].
    eapply Forall_impl; [exact Hes'|].
    intros call. unfold aimed. by rewrite Hg, Hp.
  - rewrite Hg, Hp. split; [done|]. split; [done|]. by exists es.
Qed.

Lemma steady_silent {A} (m : M A) :
  (forall w, snd (m w) = w \/
             exists zs rs, snd (m w) = set_children zs rs w) ->
  steady m.
Proof.
  intros Hm w. destruct (Hm w) as [-> | (zs & rs & ->)];
    (split; [done|]; split; [done|]; exists []; split;
     [by rewrite app_nil_r | constructor]).
Qed.

Lemma steady_emit (e : event) :
  kills [e] = [] -> steady (modify (emit e)).
Proof.
  intros He w. split; [done|]. split; [done|].
  exists [e]. split; [done|]. rewrite He. constructor.
Qed.

Lemma steady_flags (f : gmap Z bool) : steady (modify (set_IGNORED_SIGMAP f)).
Proof.
  intros w. split; [done|]. split; [done|].
  exists []. split; [by simpl; rewrite app_nil_r | constructor].
Qed.

Lemma steady_forward_signal (signum : Z) : steady (forward_signal signum).
Proof.
  intros w. rewrite forward_signal_eq. cbv zeta.
  destruct (_ =? 0); [|destruct (k_kill_ok _ _ _)]; simpl;
    (split; [done|]; split; [done|]; eexists; split; [reflexivity|]);
    rewrite kills_app, kills_translation_log; simpl;
    repeat constructor.
Qed.

Lemma steady_ret {A} (a : A) : steady (ret a).
Proof. apply steady_silent. by left. Qed.

Lemma steady_gets {A} (f : World -> A) : steady (gets f).
Proof. apply steady_silent. by left. Qed.

Lemma steady_stop {A} (h : halt) : steady (@stop A h).
Proof. apply steady_silent. by left. Qed.

Lemma steady_getitem {V} (d : World -> gmap Z V) (key : Z) :
  steady (getitem d key).
Proof.
  apply steady_silent. intros w. left. unfold getitem. by destruct (d w !! key).
Qed.

Lemma steady_assert (b : bool) : steady (py_assert b).
Proof. destruct b; [apply steady_ret | apply steady_stop]. Qed.

Lemma steady_log (l : level) (m : message) : steady (modify (emit (Log l m))).
Proof. by apply steady_emit. Qed.

Lemma steady_waitpid : steady os_waitpid_any_nohang.
Proof.
  apply steady_silent. intros w. unfold os_waitpid_any_nohang.
  destruct (k_zombies (kernel w)) as [|z rest]; simpl.
  - left. by destruct (k_running (kernel w)).
  - right. by eexists _, _.
Qed.

Lemma steady_self_stop :
  steady (bind os_getpid (fun self => os_kill self SIGSTOP)).
Proof.
  intros w. unfold bind, os_getpid, gets, os_kill.
  destruct (k_kill_ok _ _ _); simpl;
    (split; [done|]; split; [done|]; exists [Kill (k_pid (kernel w)) SIGSTOP];
     split; [done|]; simpl; constructor; [by right | constructor]).
Qed.

Lemma steady_sigwait (a : arrival) : steady (signal_sigwait a).
Proof.
  apply steady_silent. intros w. right. by eexists _, _.
Qed.

Lemma steady_ioctl : steady fcntl_ioctl_TIOCNOTTY.
Proof.
  apply steady_silent. intros w. left.
  unfold fcntl_ioctl_TIOCNOTTY. by destruct (k_ioctl (kernel w)).
Qed.

Lemma steady_fork : steady os_fork.
Proof.
  apply steady_silent. intros w. unfold os_fork.
  destruct (k_fork (kernel w)) as [pid|]; [|by left].
  destruct (0 <? pid); [right; by eexists _, _ | by left].
Qed.

Lemma steady_execvp (program : string) (args : list string) :
  steady (os_execvp program args).
Proof.
  apply steady_silent. intros w. left.
  unfold os_execvp. by destruct (k_exec_ok (kernel w)).
Qed.

Lemma steady_setsid : steady os_setsid.
Proof. by apply steady_emit. Qed.

Lemma steady_signal_signal (i : Z) : steady (signal_signal i).
Proof. by apply steady_emit. Qed.

Create HintDb steady_db.
#[local] Hint Resolve steady_ret steady_gets steady_stop steady_getitem
  steady_assert steady_log steady_flags steady_waitpid steady_self_stop
  steady_sigwait steady_ioctl steady_fork steady_execvp steady_setsid
  steady_signal_signal steady_forward_signal : steady_db.

Ltac steady_steps :=
  repeat first
    [ solve [auto with steady_db]
    | apply steady_bind; [|intros ?]
    | match goal with |- steady (if ?b then _ else _) => destruct b end
    | match goal with |- steady (let _ := _ in _) => cbv zeta end ].

Lemma steady_reap_while (fuel : nat) :
  forall p st : Z, steady (reap_while fuel p st).
Proof.
  induction fuel as [|fuel IH]; intros p st; simpl;
    unfold logger_info, sys_exit; steady_steps.
Qed.

Lemma steady_handle_signal (signum : Z) : steady (handle_signal signum).
Proof.
  pose proof steady_reap_while as Hr.
  unfold handle_signal, logger_info. steady_steps.
Qed.

Lemma steady_for_each {A} (l : list A) (body : A -> M unit) :
  (forall x, steady (body x)) -> steady (for_each l body).
Proof.
  intros Hb. induction l as [|x l IH]; simpl.
  - apply steady_ret.
  - apply steady_bind; [apply Hb | intros _; apply IH].
Qed.

Lemma steady_proxy_loop (script : list arrival) : steady (proxy_loop script).
Proof.
  pose proof steady_handle_signal as Hh.
  induction script as [|a rest IH]; simpl; steady_steps.
Qed.

Lemma steady_run (program : string) (args : list string)
    (script : list arrival) : steady (run program args script).
Proof.
  pose proof steady_proxy_loop as Hl.
  unfold run, register_signals, logger_info, logger_warn, logger_error,
    os_getsid0, os_getpid.
  repeat first
    [ solve [auto with steady_db]
    | apply steady_for_each; intros ?
    | apply steady_bind; [|intros ?]
    | match goal with |- steady (if ?b then _ else _) => destruct b end ].
Qed.

(** Whatever pid [os.fork] returns and whatever arrives, a process started
    by [run] in a freshly imported module sends signals to pid 1 only,
    apart from the SIGSTOP for itself; never to its child or to the
    child's process group. *)
Lemma run_signals_pid_1 (program : string) (args : list string)
    (script : list arrival) (k : Kernel) :
  Forall (fun call => call.1 = 1 \/ call = (k_pid k, SIGSTOP))
         (kills (trace (snd (run program args script
                               (mkWorld module_globals k []))))).
Proof.
  destruct (steady_run program args script (mkWorld module_globals k []))
    as (_ & _ & es & -> & Hes).
  exact Hes.
Qed.

(** ** Scenarios of a whole run *)

(** Three children other than the forked one die before one SIGCHLD: all
    three are reaped and the loop waits again. *)
Example three_deaths_one_notification :
  let r := run "sleep" ["100"]
             [mkArrival [(101, 0); (102, 9); (103, 256)] SIGCHLD]
             (set_children [] [101; 102; 103] boot) in
  state_of (fst r) = RUNNING /\
  k_zombies (kernel (snd r)) = [] /\
  k_running (kernel (snd r)) = [100] /\
  kills (trace (snd r)) = [].
Proof. vm_compute. repeat split. Qed.

(** A session leader that detached from its terminal swallows the first
    SIGHUP and the first SIGCONT, and forwards the second of each. *)
Example hangup_twice :
  let script := [mkArrival [] SIGHUP; mkArrival [] SIGCONT;
                 mkArrival [] SIGHUP; mkArrival [] SIGCONT] in
  kills (trace (snd (run "sleep" ["100"] script boot)))
    = [(1, SIGHUP); (1, SIGCONT)].
Proof. vm_compute. repeat split. Qed.

(** [IGNORED_SIGMAP] has the keys 0 to 30, [SIGMAP] the keys 1 to 31:
    signal 31 is awaited, and its flag is missing. *)
Example signal_31_has_no_flag :
  fst (handle_signal MAXSIG boot) = Halt (Raised KeyError).
Proof. vm_compute. reflexivity. Qed.

(** * Further properties of the code *)

(** ** The tables of the module *)

Lemma module_sigmap_lookup (k : Z) :
  SIGMAP module_globals !! k
    = (if bool_decide (1 <= k <= 31) then Some (-1) else None).
Proof.
  simpl. rewrite fromkeys_lookup. unfold MAXSIG.
  repeat case_bool_decide; done || lia.
Qed.

Lemma module_flags_lookup (k : Z) :
  IGNORED_SIGMAP module_globals !! k
    = (if bool_decide (0 <= k <= 30) then Some false else None).
Proof.
  simpl. rewrite fromkeys_lookup. unfold MAXSIG.
  repeat case_bool_decide; done || lia.
Qed.

(** X1. Right after import [SIGMAP] has exactly the keys 1 to 31, all with
    the value -1, and [IGNORED_SIGMAP] exactly the keys 0 to 30, all False:
    0 has a flag and no table entry, 31 a table entry and no flag. *)
Theorem module_tables_keys (k : Z) :
  SIGMAP module_globals !! k
    = (if bool_decide (1 <= k <= 31) then Some (-1) else None) /\
  IGNORED_SIGMAP module_globals !! k
    = (if bool_decide (0 <= k <= 30) then Some false else None).
Proof. split; [apply module_sigmap_lookup | apply module_flags_lookup]. Qed.

(** ** Translation *)

(** X2. Once a positive [new] is stored under [old], [translate_signal old]
    answers [new] and logs the translation, and the answer for every other
    signal is what it was before. *)
Theorem translate_signal_after_store (old new other : Z) (w : World) :
  0 < new ->
  let w' := set_SIGMAP (<[old := new]> (SIGMAP (globals w))) w in
  translate_signal old w'
    = (Ret new, emits [Log INFO (MsgTranslating old new)] w') /\
  (other <> old ->
   fst (translate_signal other w') = fst (translate_signal other w)).
Proof.
  intros Hnew w'. rewrite !translate_signal_eq. unfold effective. split.
  - replace (SIGMAP (globals w') !! old) with (Some new)
      by (symmetry; apply lookup_insert_eq).
    by replace (new >? 0) with true by lia.
  - intros Hne.
    replace (SIGMAP (globals w') !! other) with (SIGMAP (globals w) !! other)
      by (symmetry; by apply lookup_insert_ne). done.
Qed.

Lemma translate_signal_after_store_witness :
  0 < 3 /\
  translate_signal 14 (set_SIGMAP (<[14 := 3]> (SIGMAP (globals boot))) boot)
    = (Ret 3,
       emits [Log INFO (MsgTranslating 14 3)]
             (set_SIGMAP (<[14 := 3]> (SIGMAP (globals boot))) boot)).
Proof.
  assert (H : 0 < 3) by lia.
  split; [exact H|]. exact (proj1 (translate_signal_after_store 14 3 5 boot H)).
Defined.

(** X3. After [set_rewrite_to_sigstop_if_not_defined signum], a signal
    whose entry was the initial -1 is translated to SIGSTOP; one with
    another entry is translated as before. *)
Theorem sigstop_default_then_translate (signum v : Z) (w : World) :
  SIGMAP (globals w) !! signum = Some v ->
  fst ((set_rewrite_to_sigstop_if_not_defined signum ;;
        translate_signal signum) w)
    = Ret (if v =? -1 then SIGSTOP else if v >? 0 then v else signum).
Proof.
  intros Hv. unfold bind. rewrite sigstop_default_eq, Hv.
  destruct (v =? -1) eqn:E; rewrite translate_signal_eq; unfold effective; simpl.
  - by rewrite lookup_insert_eq.
  - by rewrite Hv.
Qed.

Lemma sigstop_default_then_translate_witness :
  SIGMAP (globals boot) !! SIGTSTP = Some (-1) /\
  fst ((set_rewrite_to_sigstop_if_not_defined SIGTSTP ;;
        translate_signal SIGTSTP) boot) = Ret SIGSTOP.
Proof.
  assert (H : SIGMAP (globals boot) !! SIGTSTP = Some (-1))
    by (vm_compute; reflexivity).
  split; [exact H|]. exact (sigstop_default_then_translate SIGTSTP (-1) boot H).
Defined.

(** ** Forwarding *)

(** X4. [forward_signal] changes neither globals nor kernel and calls
    [os.kill] at most once: not at all when the effective signal is 0,
    which only signal 0 itself can have, and else once, with the effective
    signal, on the kill target. *)
Theorem forward_signal_one_kill (signum : Z) (w : World) :
  let eff := effective (SIGMAP (globals w)) signum in
  let w' := snd (forward_signal signum w) in
  globals w' = globals w /\
  kernel w' = kernel w /\
  kills (trace w')
    = kills (trace w)
      ++ (if eff =? 0 then [] else [(kill_target (globals w), eff)]) /\
  (eff =? 0) = (signum =? 0) && (eff =? signum).
Proof.
  intros eff w'. subst w'. rewrite forward_signal_eq. cbv zeta. fold eff.
  assert (Hz : (eff =? 0) = (signum =? 0) && (eff =? signum)).
  { subst eff. unfold effective.
    destruct (SIGMAP (globals w) !! signum) as [v|]; [|lia].
    destruct (v >? 0) eqn:Ev; lia. }
  destruct (eff =? 0); [|destruct (k_kill_ok _ _ _)]; simpl;
    rewrite ?kills_app, ?kills_translation_log, ?app_nil_r; done.
Qed.

(** X5. When the kernel refuses the [os.kill], [forward_signal] raises
    OSError after the call and does not log that it forwarded. *)
Theorem forward_signal_kill_refused (signum : Z) (w : World) :
  effective (SIGMAP (globals w)) signum <> 0 ->
  k_kill_ok (kernel w) (kill_target (globals w))
            (effective (SIGMAP (globals w)) signum) = false ->
  forward_signal signum w
    = (Halt (Raised OSError),
       emits (translation_log (SIGMAP (globals w)) signum
              ++ [Kill (kill_target (globals w))
                       (effective (SIGMAP (globals w)) signum)]) w).
Proof.
  intros Hne Hko. rewrite forward_signal_eq. cbv zeta.
  replace (effective _ signum =? 0) with false by lia. by rewrite Hko.
Qed.

Lemma forward_signal_kill_refused_witness :
  effective (SIGMAP (globals boot_refused)) SIGTERM <> 0 /\
  k_kill_ok (kernel boot_refused) (kill_target (globals boot_refused))
            (effective (SIGMAP (globals boot_refused)) SIGTERM) = false /\
  fst (forward_signal SIGTERM boot_refused) = Halt (Raised OSError).
Proof.
  assert (H1 : effective (SIGMAP (globals boot_refused)) SIGTERM <> 0)
    by (vm_compute; discriminate).
  assert (H2 : k_kill_ok (kernel boot_refused) (kill_target (globals boot_refused))
                 (effective (SIGMAP (globals boot_refused)) SIGTERM) = false)
    by reflexivity.
  split; [exact H1|]. split; [exact H2|].
  exact (f_equal fst (forward_signal_kill_refused SIGTERM boot_refused H1 H2)).
Defined.

(** ** The handler *)

(** X6. For a signal without a key in [IGNORED_SIGMAP] the handler logs
    the reception and raises KeyError; in a freshly imported module that is
    every signal outside 0 to 30, the awaited 31 among them. *)
Theorem handle_signal_without_flag (signum : Z) (k : Kernel) (t : list event) :
  signum < 0 \/ 30 < signum ->
  handle_signal signum (mkWorld module_globals k t)
    = (Halt (Raised KeyError),
       mkWorld module_globals k (t ++ [Log INFO (MsgReceived signum)])).
Proof.
  intros Hout. rewrite handle_signal_eq. cbv zeta.
  change (globals (mkWorld module_globals k t)) with module_globals.
  rewrite module_flags_lookup. case_bool_decide; [lia|].
  by rewrite emits_emits || done.
Qed.

Lemma handle_signal_without_flag_witness :
  (MAXSIG < 0 \/ 30 < MAXSIG) /\
  fst (handle_signal MAXSIG boot) = Halt (Raised KeyError).
Proof.
  assert (H : MAXSIG < 0 \/ 30 < MAXSIG) by (right; reflexivity).
  split; [exact H|].
  exact (f_equal fst (handle_signal_without_flag MAXSIG quiet_kernel [] H)).
Defined.

(** X7. The handler writes to no global but [IGNORED_SIGMAP], and there at
    most the flag of the signal it handles, which it sets to False; the
    pid of the process stays what it is. *)
Theorem handle_signal_writes_one_flag (signum : Z) (w : World) :
  let w' := snd (handle_signal signum w) in
  SIGMAP (globals w') = SIGMAP (globals w) /\
  SIGMAP_str (globals w') = SIGMAP_str (globals w) /\
  child_pid (globals w') = child_pid (globals w) /\
  use_setsid (globals w') = use_setsid (globals w) /\
  k_pid (kernel w') = k_pid (kernel w) /\
  IGNORED_SIGMAP (globals w')
    = (if bool_decide (IGNORED_SIGMAP (globals w) !! signum = Some true)
       then <[signum := false]> (IGNORED_SIGMAP (globals w))
       else IGNORED_SIGMAP (globals w)).
Proof.
  cbv zeta. rewrite handle_signal_eq. cbv zeta.
  destruct (IGNORED_SIGMAP (globals w) !! signum) as [[]|] eqn:E;
    [by rewrite bool_decide_eq_true_2 | | by rewrite bool_decide_eq_false_2].
  rewrite bool_decide_eq_false_2 by done.
  destruct (signum =? SIGCHLD).
  - destruct (k_zombies (kernel w)) as [|z rest].
    + by destruct (k_running (kernel w)).
    + rewrite reap_while_keeps_globals.
      destruct (steady_reap_while (S (length rest)) z.1 z.2
                  (set_children rest (k_running (kernel w))
                     (emits [Log INFO (MsgReceived signum)] w)))
        as (_ & Hp & _).
      by rewrite Hp.
  - pose proof (forward_signal_keeps signum
                  (emits [Log INFO (MsgReceived signum)] w)) as [Hg Hk].
    destruct (forward_signal signum _) as [[[]|h] w1]; simpl in *.
    + destruct (is_tty_signal signum); [|by simpl; rewrite Hg, Hk].
      unfold os_kill. destruct (k_kill_ok _ _ _); simpl; by rewrite Hg, Hk.
    + by simpl; rewrite Hg, Hk.
Qed.


(** ** Exit statuses *)

Lemma WTERMSIG_range (status : Z) : 0 <= WTERMSIG status <= 127.
Proof.
  unfold WTERMSIG.
  assert (E : Z.land status 127 = status mod 128)
    by (change 127 with (Z.ones 7); by rewrite Z.land_ones).
  rewrite E. pose proof (Z.mod_pos_bound status 128). lia.
Qed.

Lemma WEXITSTATUS_range (status : Z) : 0 <= WEXITSTATUS status <= 255.
Proof.
  unfold WEXITSTATUS. rewrite Z.shiftr_land.
  assert (E : Z.land (Z.shiftr status 8) (Z.shiftr 65280 8)
              = Z.shiftr status 8 mod 256)
    by (change (Z.shiftr 65280 8) with (Z.ones 8); by rewrite Z.land_ones).
  rewrite E. pose proof (Z.mod_pos_bound (Z.shiftr status 8) 256). lia.
Qed.

Lemma exit_status_of_range (status : Z) : 0 <= exit_status_of status <= 255.
Proof.
  unfold exit_status_of.
  pose proof (WTERMSIG_range status). pose proof (WEXITSTATUS_range status).
  destruct (WIFEXITED status); lia.
Qed.

(** The loop exits only with the status of the tracked child. *)
Lemma reap_while_exit_cause (fuel : nat) :
  forall (p st : Z) (w : World) (code : Z),
    fst (reap_while fuel p st w) = Halt (SysExit code) ->
    0 < child_pid (globals w) /\
    exists st',
      (child_pid (globals w), st') ∈ (p, st) :: k_zombies (kernel w) /\
      code = exit_status_of st'.
Proof.
  induction fuel as [|fuel IH]; intros p st w code.
  - simpl. by destruct (p >? 0).
  - destruct (Z_lt_le_dec 0 p) as [Hp|Hp]; [|by rewrite reap_while_done].
    rewrite reap_while_unfold by done.
    destruct (negb _); [done|]. cbv zeta.
    destruct (p =? child_pid (globals w)) eqn:Ep.
    + pose proof (forward_signal_outcome SIGTERM (emits [reap_log (p, st)] w)) as Ho.
      destruct (forward_signal SIGTERM _) as [[[]|h] w2]; simpl in *.
      * intros [= <-]. split; [lia|]. exists st. split; [|done].
        replace (child_pid (globals w)) with p by lia. apply list_elem_of_here.
      * destruct Ho as [Ho|Ho]; [done|]. by rewrite Ho.
    + destruct (k_zombies (kernel w)) as [|z rest] eqn:Ez.
      * by destruct (k_running (kernel w)).
      * intros Hexit. apply IH in Hexit as (Hc & st' & Hin & ->).
        simpl in Hc, Hin. split; [done|]. exists st'. split; [|done].
        apply list_elem_of_further. by destruct z.
Qed.

(** X9. The handler calls [sys.exit] for no signal but SIGCHLD, only with
    a positive pid in the module's [child_pid] and a dead child of that pid
    waiting, and with the status derived for that child, a number from 0 to
    255. *)
Theorem handle_signal_exit_cause (signum code : Z) (w : World) :
  fst (handle_signal signum w) = Halt (SysExit code) ->
  signum = SIGCHLD /\
  0 < child_pid (globals w) /\
  0 <= code <= 255 /\
  exists st,
    (child_pid (globals w), st) ∈ k_zombies (kernel w) /\
    code = exit_status_of st.
Proof.
  rewrite handle_signal_eq. cbv zeta.
  destruct (IGNORED_SIGMAP (globals w) !! signum) as [[]|]; [done| |done].
  destruct (signum =? SIGCHLD) eqn:Es.
  - destruct (k_zombies (kernel w)) as [|[p st] rest].
    + by destruct (k_running (kernel w)).
    + intros Hexit. apply reap_while_exit_cause in Hexit as (Hc & st' & Hin & ->).
      simpl in Hc, Hin. split; [lia|]. split; [done|].
      split; [apply exit_status_of_range|]. by exists st'.
  - pose proof (forward_signal_outcome signum
                  (emits [Log INFO (MsgReceived signum)] w)) as Ho.
    destruct (forward_signal signum _) as [[[]|h] w1]; simpl in *.
    + destruct (is_tty_signal signum); [|done].
      unfold os_kill. by destruct (k_kill_ok _ _ _).
    + destruct Ho as [Ho|Ho]; [done|]. by rewrite Ho.
Qed.

Lemma handle_signal_exit_cause_witness :
  fst (handle_signal SIGCHLD (deathbed (Z.shiftl 7 8) boot)) = Halt (SysExit 7) /\
  0 <= 7 <= 255.
Proof.
  assert (H : fst (handle_signal SIGCHLD (deathbed (Z.shiftl 7 8) boot))
              = Halt (SysExit 7)) by (vm_compute; reflexivity).
  split; [exact H|].
  exact (proj1 (proj2 (proj2
           (handle_signal_exit_cause SIGCHLD 7 (deathbed (Z.shiftl 7 8) boot) H)))).
Defined.

(** ** The reaper at the death of the tracked child *)

Lemma reap_while_tracked_now (fuel : nat) (p st : Z) (w : World) :
  reported (p, st) = true ->
  child_pid (globals w) = p ->
  reap_while (S fuel) p st w =
    let eff := effective (SIGMAP (globals w)) SIGTERM in
    let target := kill_target (globals w) in
    let sent := [reap_log (p, st)]
                  ++ translation_log (SIGMAP (globals w)) SIGTERM
                  ++ [Kill target eff] in
    if k_kill_ok (kernel w) target eff then
      (Halt (SysExit (exit_status_of st)),
       emits (sent ++ [Log INFO (MsgForwarded eff);
                       Log INFO (MsgGoodbye (exit_status_of st))]) w)
    else
      (Halt (Raised OSError), emits sent w).
Proof.
  intros Hrep Hc. unfold reported in Hrep. simpl in Hrep.
  apply andb_true_iff in Hrep as [Hp Hst].
  rewrite reap_while_unfold by lia. rewrite Hst. simpl negb. cbv iota zeta.
  replace (p =? child_pid (globals w)) with true by lia.
  rewrite forward_signal_eq. cbv zeta.
  replace (effective _ SIGTERM =? 0) with false
    by (symmetry; apply Z.eqb_neq; intros E; by apply effective_zero in E).
  match goal with
  | |- context [k_kill_ok (kernel ?w2) (kill_target (globals ?w2))] =>
      change (k_kill_ok (kernel w2)) with (k_kill_ok (kernel w));
      change (globals w2) with (globals w)
  end.
  destruct (k_kill_ok _ _ _); f_equal; clear; world_eq.
Qed.

Lemma reap_while_tracked_later (before : list (Z * Z)) :
  forall (fuel : nat) (p st pid pst : Z) (after : list (Z * Z)) (w : World),
    k_zombies (kernel w) = before ++ (pid, pst) :: after ->
    child_pid (globals w) = pid ->
    Forall (fun z => reported z = true /\ z.1 <> pid) ((p, st) :: before) ->
    reported (pid, pst) = true ->
    (length before < fuel)%nat ->
    reap_while (S fuel) p st w =
      last_turn w (reap_log <$> (p, st) :: before ++ [(pid, pst)]) pst after.
Proof.
  induction before as [|[q sq] before IH];
    intros fuel p st pid pst after w Hz Hc Hall Hrep Hlen;
    (destruct fuel as [|fuel]; [simpl in Hlen; lia|]);
    apply Forall_cons_1 in Hall as [[Hr Hne] Hall];
    unfold reported in Hr; simpl in Hr, Hne;
    apply andb_true_iff in Hr as [Hp Hst];
    rewrite reap_while_unfold by lia; rewrite Hst; cbv zeta;
    simpl negb; cbv iota;
    replace (p =? child_pid (globals w)) with false by lia; rewrite Hz;
    simpl app; cbv iota.
  - rewrite reap_while_tracked_now by done. unfold last_turn. cbv zeta.
    match goal with
    | |- context [k_kill_ok (kernel ?w2) (kill_target (globals ?w2))] =>
        change (k_kill_ok (kernel w2)) with (k_kill_ok (kernel w));
        change (globals w2) with (globals w)
    end.
    destruct (k_kill_ok _ _ _); f_equal; clear; world_eq.
  - rewrite (IH fuel q sq pid pst after); try done; [|simpl in Hlen; lia].
    unfold last_turn. cbv zeta.
    match goal with
    | |- context [k_kill_ok (kernel ?w2) (kill_target (globals ?w2))] =>
        change (k_kill_ok (kernel w2)) with (k_kill_ok (kernel w));
        change (globals w2) with (globals w)
    end.
    destruct (k_kill_ok _ _ _); f_equal; clear; world_eq.
Qed.

(** The handler at a SIGCHLD with the tracked child among the dead. *)
Lemma reaper_reaches_child
    (before after : list (Z * Z)) (pid pst : Z) (w : World) :
  IGNORED_SIGMAP (globals w) !! SIGCHLD = Some false ->
  k_zombies (kernel w) = before ++ (pid, pst) :: after ->
  child_pid (globals w) = pid ->
  Forall (fun z => reported z = true /\ z.1 <> pid) before ->
  reported (pid, pst) = true ->
  handle_signal SIGCHLD w =
    last_turn w (Log INFO (MsgReceived SIGCHLD)
                   :: (reap_log <$> before ++ [(pid, pst)])) pst after.
Proof.
  intros Hflag Hz Hc Hall Hrep.
  rewrite handle_signal_eq. cbv zeta. rewrite Hflag.
  replace (SIGCHLD =? SIGCHLD) with true by done. rewrite Hz.
  destruct before as [|[q sq] before]; simpl app; cbv iota.
  - rewrite reap_while_tracked_now by done. unfold last_turn. cbv zeta.
    match goal with
    | |- context [k_kill_ok (kernel ?w2) (kill_target (globals ?w2))] =>
        change (k_kill_ok (kernel w2)) with (k_kill_ok (kernel w));
        change (globals w2) with (globals w)
    end.
    destruct (k_kill_ok _ _ _); f_equal; clear; world_eq.
  - rewrite length_app. simpl length.
    replace (length before + S (length after))%nat
      with (S (length before + length after)) by lia.
    rewrite (reap_while_tracked_later before _ q sq pid pst after);
      try done; [|lia].
    unfold last_turn. cbv zeta.
    match goal with
    | |- context [k_kill_ok (kernel ?w2) (kill_target (globals ?w2))] =>
        change (k_kill_ok (kernel w2)) with (k_kill_ok (kernel w));
        change (globals w2) with (globals w)
    end.
    destruct (k_kill_ok _ _ _); f_equal; clear; world_eq.
Qed.

(** X10. A SIGCHLD with the tracked child among the dead, its pid in the
    module's [child_pid]: the handler reaps the children before it, sends
    the effective SIGTERM to the kill target and, if that call succeeds,
    exits with the status derived for the child.  The dead children that
    come after it are left unreaped. *)
Theorem reaper_exits_with_status
    (before after : list (Z * Z)) (pid pst : Z) (w : World) :
  IGNORED_SIGMAP (globals w) !! SIGCHLD = Some false ->
  k_zombies (kernel w) = before ++ (pid, pst) :: after ->
  child_pid (globals w) = pid ->
  Forall (fun z => reported z = true /\ z.1 <> pid) before ->
  reported (pid, pst) = true ->
  k_kill_ok (kernel w) (kill_target (globals w))
            (effective (SIGMAP (globals w)) SIGTERM) = true ->
  let r := handle_signal SIGCHLD w in
  fst r = Halt (SysExit (exit_status_of pst)) /\
  k_zombies (kernel (snd r)) = after /\
  kills (trace (snd r))
    = kills (trace w)
      ++ [(kill_target (globals w), effective (SIGMAP (globals w)) SIGTERM)] /\
  last (trace (snd r)) = Some (Log INFO (MsgGoodbye (exit_status_of pst))).
Proof.
  intros Hflag Hz Hc Hall Hrep Hok r. subst r.
  rewrite (reaper_reaches_child before after pid pst) by done.
  unfold last_turn. cbv zeta. rewrite Hok. cbn [fst snd].
  split; [done|]. split; [done|]. split.
  - cbn [trace set_children emits]. rewrite !kills_app, kills_translation_log.
    assert (Hlogs : forall l : list (Z * Z), kills (reap_log <$> l) = []).
    { induction l as [|z l IHl]; [done|]. simpl.
      unfold reap_log at 1. by destruct (WIFEXITED z.2). }
    simpl. by rewrite Hlogs, app_nil_r.
  - cbn [trace set_children emits]. by rewrite !last_app.
Qed.

Lemma reaper_exits_with_status_witness :
  let w := deathbed (Z.shiftl 7 8) boot in
  fst (handle_signal SIGCHLD w) = Halt (SysExit 7) /\
  k_zombies (kernel (snd (handle_signal SIGCHLD w))) = [(102, 9)].
Proof.
  intros w.
  assert (H1 : IGNORED_SIGMAP (globals w) !! SIGCHLD = Some false)
    by (vm_compute; reflexivity).
  assert (H2 : k_zombies (kernel w) = [(101, 0)] ++ (100, Z.shiftl 7 8) :: [(102, 9)])
    by reflexivity.
  assert (H3 : child_pid (globals w) = 100) by reflexivity.
  assert (H4 : Forall (fun z => reported z = true /\ z.1 <> 100) [(101, 0)])
    by (repeat constructor; vm_compute; discriminate).
  assert (H5 : reported (100, Z.shiftl 7 8) = true) by reflexivity.
  assert (H6 : k_kill_ok (kernel w) (kill_target (globals w))
                 (effective (SIGMAP (globals w)) SIGTERM) = true)
    by reflexivity.
  pose proof (reaper_exits_with_status
                [(101, 0)] [(102, 9)] 100 (Z.shiftl 7 8) w H1 H2 H3 H4 H5 H6)
    as (Ha & Hb & _).
  split; [exact Ha | exact Hb].
Defined.

(** X11. In the same situation, when the kernel refuses the SIGTERM (the
    target is gone, say), the handler raises OSError where it would have
    exited: the status of the child is lost. *)
Theorem reaper_exit_lost_on_refusal
    (before after : list (Z * Z)) (pid pst : Z) (w : World) :
  IGNORED_SIGMAP (globals w) !! SIGCHLD = Some false ->
  k_zombies (kernel w) = before ++ (pid, pst) :: after ->
  child_pid (globals w) = pid ->
  Forall (fun z => reported z = true /\ z.1 <> pid) before ->
  reported (pid, pst) = true ->
  k_kill_ok (kernel w) (kill_target (globals w))
            (effective (SIGMAP (globals w)) SIGTERM) = false ->
  let r := handle_signal SIGCHLD w in
  fst r = Halt (Raised OSError) /\
  k_zombies (kernel (snd r)) = after /\
  last (trace (snd r))
    = Some (Kill (kill_target (globals w))
                 (effective (SIGMAP (globals w)) SIGTERM)).
Proof.
  intros Hflag Hz Hc Hall Hrep Hko r. subst r.
  rewrite (reaper_reaches_child before after pid pst) by done.
  unfold last_turn. cbv zeta. rewrite Hko. cbn [fst snd].
  split; [done|]. split; [done|].
  cbn [trace set_children emits]. by rewrite !last_app.
Qed.

Lemma reaper_exit_lost_on_refusal_witness :
  let w := deathbed 9 boot_refused in
  fst (handle_signal SIGCHLD w) = Halt (Raised OSError) /\
  k_zombies (kernel (snd (handle_signal SIGCHLD w))) = [(102, 9)].
Proof.
  intros w.
  assert (H1 : IGNORED_SIGMAP (globals w) !! SIGCHLD = Some false)
    by (vm_compute; reflexivity).
  assert (H2 : k_zombies (kernel w) = [(101, 0)] ++ (100, 9) :: [(102, 9)])
    by reflexivity.
  assert (H3 : child_pid (globals w) = 100) by reflexivity.
  assert (H4 : Forall (fun z => reported z = true /\ z.1 <> 100) [(101, 0)])
    by (repeat constructor; vm_compute; discriminate).
  assert (H5 : reported (100, 9) = true) by reflexivity.
  assert (H6 : k_kill_ok (kernel w) (kill_target (globals w))
                 (effective (SIGMAP (globals w)) SIGTERM) = false)
    by reflexivity.
  pose proof (reaper_exit_lost_on_refusal
                [(101, 0)] [(102, 9)] 100 9 w H1 H2 H3 H4 H5 H6)
    as (Ha & Hb & _).
  split; [exact Ha | exact Hb].
Defined.

(** ** The reaper without children *)

Lemma reap_while_drains_last (zs : list (Z * Z)) :
  forall (fuel : nat) (p st : Z) (w : World),
    k_zombies (kernel w) = zs ->
    k_running (kernel w) = [] ->
    Forall (fun z => reported z = true /\ z.1 <> child_pid (globals w))
           ((p, st) :: zs) ->
    (length zs < fuel)%nat ->
    reap_while fuel p st w =
      (Halt (Raised ChildProcessError),
       set_children [] [] (emits (reap_log <$> (p, st) :: zs) w)).
Proof.
  induction zs as [|z zs IH]; intros fuel p st w Hz Hr Hall Hlen;
    (destruct fuel as [|fuel]; [simpl in Hlen; lia|]);
    apply Forall_cons_1 in Hall as [[Hrep Hne] Hall];
    unfold reported in Hrep; simpl in Hrep, Hne;
    apply andb_true_iff in Hrep as [Hp Hst];
    rewrite reap_while_unfold by lia; rewrite Hst; simpl;
    replace (p =? child_pid (globals w)) with false by lia; rewrite Hz.
  - rewrite Hr. f_equal. clear Hall. world_eq.
  - destruct z as [q sq]. simpl.
    rewrite IH; try done.
    + f_equal. rewrite Hr. clear. world_eq.
    + simpl in *. lia.
Qed.

(** X12. A SIGCHLD that finds no child running any more (every child is
    dead, or there never was one) ends in ChildProcessError: the handler
    reaps the dead children, none of them the tracked one, and its next
    [waitpid] raises. *)
Theorem reaper_without_children (w : World) :
  IGNORED_SIGMAP (globals w) !! SIGCHLD = Some false ->
  k_running (kernel w) = [] ->
  Forall (fun z => reported z = true /\ z.1 <> child_pid (globals w))
         (k_zombies (kernel w)) ->
  handle_signal SIGCHLD w =
    (Halt (Raised ChildProcessError),
     set_children [] []
       (emits (Log INFO (MsgReceived SIGCHLD)
                 :: (reap_log <$> k_zombies (kernel w))) w)).
Proof.
  intros Hflag Hr Hall. rewrite handle_signal_eq. cbv zeta. rewrite Hflag, Hr.
  replace (SIGCHLD =? SIGCHLD) with true by done.
  destruct (k_zombies (kernel w)) as [|[p st] zs] eqn:Ez.
  - f_equal. clear Hall. world_eq.
  - rewrite (reap_while_drains_last zs); [| done | done | exact Hall | simpl; lia].
    f_equal. clear. world_eq.
Qed.

Lemma reaper_without_children_witness :
  let w := set_children [(100, 0)] [] boot in
  fst (handle_signal SIGCHLD w) = Halt (Raised ChildProcessError).
Proof.
  intros w.
  assert (H1 : IGNORED_SIGMAP (globals w) !! SIGCHLD = Some false)
    by (vm_compute; reflexivity).
  assert (H2 : k_running (kernel w) = []) by reflexivity.
  assert (H3 : Forall (fun z => reported z = true /\ z.1 <> child_pid (globals w))
                      (k_zombies (kernel w)))
    by (repeat constructor; vm_compute; discriminate).
  exact (f_equal fst (reaper_without_children w H1 H2 H3)).
Defined.

(** ** Start-up *)

Lemma for_each_handlers (l : list Z) (w : World) :
  for_each l (fun i => if (i =? 9) || (i =? 19) then ret tt else signal_signal i) w
    = (Ret tt,
       emits (Handler <$> List.filter (fun i => negb ((i =? 9) || (i =? 19))) l) w).
Proof.
  revert w. induction l as [|i l IH]; intros w; simpl.
  - by rewrite emits_nil.
  - unfold bind. destruct ((i =? 9) || (i =? 19)); simpl.
    + apply IH.
    + unfold signal_signal, modify. rewrite IH, emit_emits, emits_emits. done.
Qed.

Lemma register_signals_eq (w : World) :
  register_signals w = (Ret tt, emits (Handler <$> handled_signals) w).
Proof. apply for_each_handlers. Qed.

(** X13. [register_signals] installs the handler for the signals 1 to 31
    other than 9 and 19, each once and in rising order, and does nothing
    else: these are the keys of [SIGMAP], the signals that [run] waits
    for, without SIGKILL and SIGSTOP. *)
Theorem register_signals_installs (w : World) :
  register_signals w = (Ret tt, emits (Handler <$> handled_signals) w) /\
  handled_signals
    = [1; 2; 3; 4; 5; 6; 7; 8; 10; 11; 12; 13; 14; 15; 16; 17; 18;
       20; 21; 22; 23; 24; 25; 26; 27; 28; 29; 30; 31] /\
  forall i : Z,
    i ∈ handled_signals <->
    is_Some (SIGMAP module_globals !! i) /\ i <> SIGKILL /\ i <> SIGSTOP.
Proof.
  split; [apply register_signals_eq|]. split; [reflexivity|].
  intros i. unfold handled_signals.
  rewrite list_elem_of_In, filter_In, <- list_elem_of_In.
  rewrite elem_of_seqZ, module_sigmap_lookup. unfold MAXSIG, SIGKILL, SIGSTOP.
  rewrite negb_true_iff, orb_false_iff.
  case_bool_decide; split.
  - intros (_ & ? & ?). split; [by eexists|lia].
  - intros (_ & ? & ?). lia.
  - lia.
  - intros ([? [=]] & _).
Qed.

(** [run], by cases. *)
Lemma run_eq (program : string) (args : list string)
    (script : list arrival) (w : World) :
  run program args script w =
    let w1 := emits (Handler <$> handled_signals) w in
    match k_ioctl (kernel w) with
    | None => (Halt (Raised OSError), w1)
    | Some r =>
        let w2 :=
          if r =? -1 then emits [Log WARNING MsgUnableToDetach] w1
          else if k_sid (kernel w) =? k_pid (kernel w) then
            set_IGNORED_SIGMAP
              (<[SIGCONT := true]>
                 (<[SIGHUP := true]> (IGNORED_SIGMAP (globals w))))
              (emits [Log INFO MsgDetachedLeader] w1)
          else emits [Log INFO MsgDetachedNotLeader] w1 in
        match k_fork (kernel w) with
        | None => (Halt (Raised OSError), w2)
        | Some pid =>
            if pid <? 0 then (Ret 1, emits [Log ERROR MsgUnableToFork] w2)
            else if pid =? 0 then
              let w3 := if truthy (use_setsid (globals w))
                        then emits [Setsid] w2 else w2 in
              if k_exec_ok (kernel w) then (Halt (Execve program args), w3)
              else (Halt (Raised OSError), w3)
            else
              proxy_loop script
                (emits [Log INFO (MsgSpawned pid)]
                   (set_children (k_zombies (kernel w))
                                 (k_running (kernel w) ++ [pid]) w2))
        end
    end.
Proof.
  unfold run. unfold bind at 1. rewrite register_signals_eq. cbv zeta.
  set (w1 := emits _ w).
  change (k_ioctl (kernel w)) with (k_ioctl (kernel w1)).
  change (k_fork (kernel w)) with (k_fork (kernel w1)).
  change (k_sid (kernel w)) with (k_sid (kernel w1)).
  change (k_pid (kernel w)) with (k_pid (kernel w1)).
  change (k_exec_ok (kernel w)) with (k_exec_ok (kernel w1)).
  change (k_zombies (kernel w)) with (k_zombies (kernel w1)).
  change (k_running (kernel w)) with (k_running (kernel w1)).
  change (globals w) with (globals w1).
  clearbody w1. clear w.
  unfold bind, fcntl_ioctl_TIOCNOTTY, os_fork, os_execvp.
  destruct (k_ioctl (kernel w1)) as [r|]; [|done].
  destruct (r =? -1); simpl.
  - destruct (k_fork (kernel w1)) as [pid|]; [|done].
    destruct (0 <? pid) eqn:E0; simpl.
    + replace (pid <? 0) with false by lia.
      replace (pid =? 0) with false by lia. done.
    + destruct (pid <? 0) eqn:E1; [done|].
      destruct (pid =? 0) eqn:E2; [|lia]. simpl.
      destruct (truthy (use_setsid (globals w1))); simpl;
        by destruct (k_exec_ok (kernel w1)).
  - destruct (k_sid (kernel w1) =? k_pid (kernel w1)); simpl.
    + destruct (k_fork (kernel w1)) as [pid|]; [|done].
      destruct (0 <? pid) eqn:E0; simpl.
      * replace (pid <? 0) with false by lia.
        replace (pid =? 0) with false by lia. done.
      * destruct (pid <? 0) eqn:E1; [done|].
        destruct (pid =? 0) eqn:E2; [|lia]. simpl.
        destruct (truthy (use_setsid (globals w1))); simpl;
          by destruct (k_exec_ok (kernel w1)).
    + destruct (k_fork (kernel w1)) as [pid|]; [|done].
      destruct (0 <? pid) eqn:E0; simpl.
      * replace (pid <? 0) with false by lia.
        replace (pid =? 0) with false by lia. done.
      * destruct (pid <? 0) eqn:E1; [done|].
        destruct (pid =? 0) eqn:E2; [|lia]. simpl.
        destruct (truthy (use_setsid (globals w1))); simpl;
          by destruct (k_exec_ok (kernel w1)).
Qed.

(** ** How the handler and the loop can end *)

Lemma reap_while_halts (fuel : nat) :
  forall (p st : Z) (w : World) (h : halt),
    (length (k_zombies (kernel w)) < fuel)%nat ->
    fst (reap_while fuel p st w) = Halt h -> raised_or_exit h.
Proof.
  induction fuel as [|fuel IH]; intros p st w h Hlen; [lia|].
  destruct (Z_lt_le_dec 0 p) as [Hp|Hp]; [|by rewrite reap_while_done].
  rewrite reap_while_unfold by done.
  destruct (negb _); [intros [= <-]; left; by eexists|]. cbv zeta.
  destruct (p =? child_pid (globals w)).
  - pose proof (forward_signal_outcome SIGTERM (emits [reap_log (p, st)] w)) as Ho.
    destruct (forward_signal SIGTERM _) as [[[]|h'] w2]; simpl in *.
    + intros [= <-]. right. by eexists.
    + destruct Ho as [Ho|Ho]; [done|]. injection Ho as ->.
      intros [= <-]. left. by eexists.
  - destruct (k_zombies (kernel w)) as [|z rest] eqn:Ez.
    + destruct (k_running (kernel w)); [|done].
      intros [= <-]. left. by eexists.
    + apply IH. simpl in *. lia.
Qed.

Lemma handle_signal_halts (signum : Z) (w : World) (h : halt) :
  fst (handle_signal signum w) = Halt h -> raised_or_exit h.
Proof.
  rewrite handle_signal_eq. cbv zeta.
  destruct (IGNORED_SIGMAP (globals w) !! signum) as [[]|];
    [done| |intros [= <-]; left; by eexists].
  destruct (signum =? SIGCHLD).
  - destruct (k_zombies (kernel w)) as [|z rest].
    + destruct (k_running (kernel w)); [|done].
      intros [= <-]. left. by eexists.
    + apply reap_while_halts. simpl. lia.
  - pose proof (forward_signal_outcome signum
                  (emits [Log INFO (MsgReceived signum)] w)) as Ho.
    destruct (forward_signal signum _) as [[[]|h'] w1]; simpl in *.
    + destruct (is_tty_signal signum); [|done].
      unfold os_kill. destruct (k_kill_ok _ _ _); [done|].
      intros [= <-]. left. by eexists.
    + destruct Ho as [Ho|Ho]; [done|]. injection Ho as ->.
      intros [= <-]. left. by eexists.
Qed.

Lemma proxy_loop_halts (script : list arrival) :
  forall w : World,
    exists h, fst (proxy_loop script w) = Halt h /\
              (h = Blocked \/ raised_or_exit h).
Proof.
  induction script as [|a rest IH]; intros w.
  - exists Blocked. by split; [|left].
  - rewrite proxy_loop_cons. set (ws := set_children _ _ w).
    pose proof (handle_signal_halts (a_signum a) ws) as Hh.
    destruct (handle_signal (a_signum a) ws) as [[[]|h] w1]; simpl in *.
    + apply IH.
    + exists h. split; [done|]. right. by apply Hh.
Qed.

Lemma proxy_loop_keeps (script : list arrival) :
  forall w : World,
    SIGMAP (globals (snd (proxy_loop script w))) = SIGMAP (globals w) /\
    child_pid (globals (snd (proxy_loop script w))) = child_pid (globals w) /\
    use_setsid (globals (snd (proxy_loop script w))) = use_setsid (globals w).
Proof.
  induction script as [|a rest IH]; intros w; [done|].
  rewrite proxy_loop_cons. set (ws := set_children _ _ w).
  pose proof (handle_signal_keeps (a_signum a) ws) as (H1 & H2 & H3).
  destruct (handle_signal (a_signum a) ws) as [[[]|h] w1]; simpl in *.
  - destruct (IH w1) as (I1 & I2 & I3). by rewrite I1, I2, I3, H1, H2, H3.
  - done.
Qed.

(** X14. The loop handles the arrivals one after the other: a script in
    two parts behaves as its first part, followed by the second part if the
    process is then still waiting, and by nothing if it has stopped. *)
Theorem proxy_loop_app (first second : list arrival) (w : World) :
  proxy_loop (first ++ second) w =
    match proxy_loop first w with
    | (Halt Blocked, w') => proxy_loop second w'
    | stopped => stopped
    end.
Proof.
  revert w. induction first as [|a first IH]; intros w; [done|].
  simpl app. rewrite !proxy_loop_cons. set (ws := set_children _ _ w).
  pose proof (handle_signal_halts (a_signum a) ws) as Hh.
  destruct (handle_signal (a_signum a) ws) as [[[]|h] w1]; simpl in *.
  - apply IH.
  - destruct (Hh h eq_refl) as [[e ->]|[code ->]]; done.
Qed.

(** ** [run] *)

(** X15. In the parent ([os.fork] returns a positive pid, the ioctl
    returns), [run] enters the loop in a world where both flags, of SIGHUP
    and of SIGCONT, are armed exactly if the ioctl did not return -1 and
    the process leads its session; the rewrite table and the module's
    [child_pid] are what they were, and the new child runs. *)
Theorem run_enters_loop (program : string) (args : list string)
    (script : list arrival) (r pid : Z) (w : World) :
  k_ioctl (kernel w) = Some r ->
  k_fork (kernel w) = Some pid ->
  0 < pid ->
  let w0 := snd (run program args [] w) in
  run program args script w = proxy_loop script w0 /\
  IGNORED_SIGMAP (globals w0)
    = (if negb (r =? -1) && (k_sid (kernel w) =? k_pid (kernel w))
       then <[SIGCONT := true]> (<[SIGHUP := true]> (IGNORED_SIGMAP (globals w)))
       else IGNORED_SIGMAP (globals w)) /\
  SIGMAP (globals w0) = SIGMAP (globals w) /\
  child_pid (globals w0) = child_pid (globals w) /\
  k_zombies (kernel w0) = k_zombies (kernel w) /\
  k_running (kernel w0) = k_running (kernel w) ++ [pid] /\
  kills (trace w0) = kills (trace w).
Proof.
  intros Hio Hfork Hpid w0. subst w0. rewrite !run_eq. cbv zeta.
  rewrite Hio, Hfork.
  replace (pid <? 0) with false by lia. replace (pid =? 0) with false by lia.
  assert (Hh : kills (Handler <$> handled_signals) = []) by reflexivity.
  split; [done|].
  destruct (r =? -1); [|destruct (k_sid (kernel w) =? k_pid (kernel w))];
    (repeat (split; [reflexivity|]));
    cbn [snd proxy_loop stop trace emits set_children set_IGNORED_SIGMAP];
    rewrite !kills_app, Hh; cbn [kills omap]; by rewrite ?app_nil_r.
Qed.

Lemma run_enters_loop_witness :
  k_ioctl (kernel boot) = Some 0 /\ k_fork (kernel boot) = Some 100 /\ 0 < 100 /\
  child_pid (globals (snd (run "sleep" ["100"] [] boot))) = -1 /\
  k_running (kernel (snd (run "sleep" ["100"] [] boot))) = [100].
Proof.
  assert (H1 : k_ioctl (kernel boot) = Some 0) by reflexivity.
  assert (H2 : k_fork (kernel boot) = Some 100) by reflexivity.
  assert (H3 : 0 < 100) by lia.
  pose proof (run_enters_loop "sleep" ["100"] [] 0 100 boot H1 H2 H3)
    as (_ & _ & _ & Hc & _ & Hr & _).
  split; [exact H1|]. split; [exact H2|]. split; [exact H3|].
  split; [exact Hc | exact Hr].
Defined.

(** X16. When the ioctl raises (the process has no controlling terminal),
    [run] stops with that OSError after it has installed the handlers: it
    forks no child and arms no flag. *)
Theorem run_detach_raises (program : string) (args : list string)
    (script : list arrival) (w : World) :
  k_ioctl (kernel w) = None ->
  run program args script w
    = (Halt (Raised OSError), emits (Handler <$> handled_signals) w).
Proof. intros Hio. rewrite run_eq. cbv zeta. by rewrite Hio. Qed.

Lemma proxy_loop_never_returns (script : list arrival) (w : World) (code : Z) :
  fst (proxy_loop script w) <> Ret code.
Proof.
  destruct (proxy_loop_halts script w) as (h & Hh & _). by rewrite Hh.
Qed.

Lemma run_return_value (program : string) (args : list string)
    (script : list arrival) (w : World) (code : Z) :
  fst (run program args script w) = Ret code ->
  code = 1 /\ exists pid, k_fork (kernel w) = Some pid /\ pid < 0.
Proof.
  rewrite run_eq. cbv zeta.
  destruct (k_ioctl (kernel w)) as [r|]; [|done].
  destruct (k_fork (kernel w)) as [pid|]; [|done].
  destruct (pid <? 0) eqn:E1.
  - intros [= <-]. split; [done|]. exists pid. split; [done|lia].
  - destruct (pid =? 0).
    + by destruct (k_exec_ok (kernel w)).
    + intros H. by apply proxy_loop_never_returns in H.
Qed.

(** X17. [run] returns to its caller only when [os.fork] gave a negative
    number, and then it returns 1; its [return 2] is never reached. *)
Theorem run_returns_only_1 (program : string) (args : list string)
    (script : list arrival) (w : World) (code : Z) :
  fst (run program args script w) = Ret code ->
  code = 1 /\ exists pid, k_fork (kernel w) = Some pid /\ pid < 0.
Proof. apply run_return_value. Qed.


Lemma run_detach_raises_witness :
  k_ioctl (kernel boot_no_tty) = None /\
  fst (run "sleep" ["100"] [mkArrival [] SIGTERM] boot_no_tty)
    = Halt (Raised OSError) /\
  k_running (kernel (snd (run "sleep" ["100"] [mkArrival [] SIGTERM] boot_no_tty)))
    = [].
Proof.
  assert (H : k_ioctl (kernel boot_no_tty) = None) by reflexivity.
  pose proof (run_detach_raises "sleep" ["100"] [mkArrival [] SIGTERM]
                boot_no_tty H) as E.
  split; [exact H|]. split.
  - exact (f_equal fst E).
  - exact (f_equal (fun r => k_running (kernel (snd r))) E).
Defined.

Lemma run_returns_only_1_witness :
  fst (run "sleep" ["100"] [] boot_fork_failed) = Ret 1 /\ 1 = 1.
Proof.
  assert (H : fst (run "sleep" ["100"] [] boot_fork_failed) = Ret 1)
    by (vm_compute; reflexivity).
  split; [exact H|].
  exact (proj1 (run_returns_only_1 "sleep" ["100"] [] boot_fork_failed 1 H)).
Defined.


(** X19. Started in a module whose [child_pid] is still -1, as it is
    after import, the parent never calls [sys.exit] and never returns:
    whatever arrives, it is either still waiting in [sigwait] or has died
    of an uncaught exception. *)
Theorem run_ends_only_by_exception (program : string) (args : list string)
    (script : list arrival) (r pid : Z) (w : World) :
  child_pid (globals w) = -1 ->
  k_ioctl (kernel w) = Some r ->
  k_fork (kernel w) = Some pid ->
  0 < pid ->
  fst (run program args script w) = Halt Blocked \/
  exists e, fst (run program args script w) = Halt (Raised e).
Proof.
  intros Hc Hio Hfork Hpid.
  destruct (inert_run program args script w) as [Hne _]; [lia|].
  revert Hne. rewrite run_eq. cbv zeta. rewrite Hio, Hfork.
  replace (pid <? 0) with false by lia. replace (pid =? 0) with false by lia.
  match goal with
  | |- context [proxy_loop script ?w0] =>
      destruct (proxy_loop_halts script w0) as (h & -> & [->|[[e ->]|[c ->]]])
  end; simpl; intros Hne.
  - by left.
  - right. by exists e.
  - by destruct (Hne c).
Qed.

Lemma run_ends_only_by_exception_witness :
  child_pid (globals boot) = -1 /\
  (fst (run "sleep" ["100"] [mkArrival [(100, 0)] SIGCHLD] boot) = Halt Blocked \/
   exists e,
     fst (run "sleep" ["100"] [mkArrival [(100, 0)] SIGCHLD] boot)
       = Halt (Raised e)).
Proof.
  assert (H0 : child_pid (globals boot) = -1) by reflexivity.
  assert (H1 : k_ioctl (kernel boot) = Some 0) by reflexivity.
  assert (H2 : k_fork (kernel boot) = Some 100) by reflexivity.
  assert (H3 : 0 < 100) by lia.
  split; [exact H0|].
  exact (run_ends_only_by_exception "sleep" ["100"]
           [mkArrival [(100, 0)] SIGCHLD] 0 100 boot H0 H1 H2 H3).
Defined.

(** X20. A process that [run] starts right after import never signals the
    child it forked, nor the process group of that child: every [os.kill]
    goes to pid 1 or is the SIGSTOP for the process itself. *)
Theorem run_never_signals_child (program : string) (args : list string)
    (script : list arrival) (k : Kernel) (pid : Z) :
  k_fork k = Some pid ->
  1 < pid ->
  0 < k_pid k ->
  k_pid k <> pid ->
  Forall (fun call => call.1 <> pid /\ call.1 <> - pid)
         (kills (trace (snd (run program args script
                               (mkWorld module_globals k []))))).
Proof.
  intros _ Hpid Hself Hne.
  destruct (steady_run program args script (mkWorld module_globals k []))
    as (_ & _ & es & -> & Hes).
  eapply Forall_impl; [exact Hes|].
  intros [target sig] [Ht|[= -> ->]]; simpl in *.
  - replace target with 1 by (rewrite Ht; reflexivity). lia.
  - lia.
Qed.

Lemma run_never_signals_child_witness :
  Forall (fun call => call.1 <> 100 /\ call.1 <> - 100)
         (kills (trace (snd (run "sleep" ["100"]
                               [mkArrival [] SIGTERM; mkArrival [] SIGTSTP]
                               (mkWorld module_globals quiet_kernel []))))).
Proof.
  apply run_never_signals_child; [reflexivity | lia | reflexivity | discriminate].
Defined.

(** X21. [run] leaves the rewrite table, the module's [child_pid] and
    [use_setsid] as it found them, however it ends. *)
Theorem run_keeps_rewrite_table (program : string) (args : list string)
    (script : list arrival) (w : World) :
  let g := globals (snd (run program args script w)) in
  SIGMAP g = SIGMAP (globals w) /\
  child_pid g = child_pid (globals w) /\
  use_setsid g = use_setsid (globals w).
Proof.
  cbv zeta. rewrite run_eq. cbv zeta.
  destruct (k_ioctl (kernel w)) as [r|]; [|done].
  destruct (k_fork (kernel w)) as [pid|].
  - destruct (pid <? 0); [|destruct (pid =? 0)].
    + destruct (r =? -1); [|destruct (k_sid (kernel w) =? k_pid (kernel w))]; done.
    + destruct (k_exec_ok (kernel w)), (truthy (use_setsid (globals w)));
        (destruct (r =? -1);
         [|destruct (k_sid (kernel w) =? k_pid (kernel w))]); done.
    + match goal with
      | |- context [proxy_loop script ?w0] =>
          destruct (proxy_loop_keeps script w0) as (-> & -> & ->)
      end.
      destruct (r =? -1); [|destruct (k_sid (kernel w) =? k_pid (kernel w))]; done.
  - destruct (r =? -1); [|destruct (k_sid (kernel w) =? k_pid (kernel w))]; done.
Qed.

(** ** [main] *)

Lemma lstrip_dashes (n : nat) (s : string) :
  lstrip_char "-" (String.append (dashes n) s) = lstrip_char "-" s.
Proof. induction n as [|n IH]; [done | exact IH]. Qed.

Lemma rstrip_only_dashes (m : nat) : rstrip_char "-" (dashes m) = EmptyString.
Proof. induction m as [|m IH]; [done | by simpl; rewrite IH]. Qed.

Lemma rstrip_dashes (s : string) (m : nat) :
  rstrip_char "-" (String.append s (dashes m)) = rstrip_char "-" s.
Proof.
  induction s as [|c s IH]; simpl.
  - apply rstrip_only_dashes.
  - by rewrite IH.
Qed.

Lemma strip_run (n m : nat) :
  strip_char "-" (String.append (dashes n) (String.append "run" (dashes m)))
    = "run"%string.
Proof.
  unfold strip_char. rewrite lstrip_dashes.
  change (lstrip_char "-" (String.append "run" (dashes m)))
    with (String.append "run" (dashes m)).
  by rewrite rstrip_dashes.
Qed.

(** X22. [main] takes the command "run" with any number of dashes before
    and after it, runs the program named next, and passes what [run]
    returns to [sys.exit]. *)
Theorem main_run_with_dashes (n m : nat) (program : string)
    (args : list string) (script : list arrival) (w : World) :
  main (String.append (dashes n) (String.append "run" (dashes m))
          :: program :: args) script w
    = (code <- run program args script ;; sys_exit code) w.
Proof. unfold main. cbv zeta. by rewrite strip_run. Qed.

(** X23. [main] without arguments raises ValueError, and with the command
    "run" alone TypeError; in both cases before anything is done. *)
Theorem main_missing_arguments (n m : nat) (script : list arrival) (w : World) :
  main [] script w = (Halt (Raised ValueError), w) /\
  main [String.append (dashes n) (String.append "run" (dashes m))] script w
    = (Halt (Raised TypeError), w).
Proof. split; [done|]. unfold main. cbv zeta. by rewrite strip_run. Qed.

(** X24. When [main], started right after import, ends by [sys.exit], the
    exit code is 1 and [os.fork] had answered a negative number: no other
    exit code is ever passed on. *)
Theorem main_exit_code (args : list string) (script : list arrival)
    (w : World) (code : Z) :
  child_pid (globals w) = -1 ->
  fst (main args script w) = Halt (SysExit code) ->
  code = 1 /\ exists pid, k_fork (kernel w) = Some pid /\ pid < 0.
Proof.
  intros Hc. unfold main.
  destruct args as [|cmd [|program args]]; [done| |]; cbv zeta;
    destruct (String.eqb _ "run"); try done.
  unfold bind, sys_exit, stop.
  destruct (inert_run program args script w) as [Hne _]; [lia|].
  pose proof (run_return_value program args script w) as Hret.
  destruct (run program args script w) as [[c|h] w1]; simpl in *.
  - intros [= <-]. by apply Hret.
  - intros [= ->]. by destruct (Hne code).
Qed.

Lemma main_exit_code_witness :
  child_pid (globals boot_fork_failed) = -1 /\
  fst (main ["--run"; "sleep"; "100"] [] boot_fork_failed) = Halt (SysExit 1) /\
  1 = 1.
Proof.
  assert (H1 : child_pid (globals boot_fork_failed) = -1) by reflexivity.
  assert (H2 : fst (main ["--run"; "sleep"; "100"] [] boot_fork_failed)
               = Halt (SysExit 1)) by (vm_compute; reflexivity).
  split; [exact H1|]. split; [exact H2|].
  exact (proj1 (main_exit_code ["--run"; "sleep"; "100"] [] boot_fork_failed 1
                  H1 H2)).
Defined.

(** ** The rewrite parser, for every argument *)

Lemma split_on_length (c : ascii) (s : string) :
  length (split_on c s) = S (occurrences c s).
Proof.
  induction s as [|c' s IH]; simpl; [done|].
  destruct (Ascii.eqb c' c); simpl; [by rewrite IH|].
  destruct (split_on c s) as [|hd tl]; simpl in *; [lia | done].
Qed.

(** X25. [parse_rewrite_signum] stores nothing, whatever its argument: with
    exactly one colon in it the comparison of a str with an int raises
    TypeError, and with any other number of colons the error is logged and
    the function returns. *)
Theorem parse_rewrite_signum_by_colons (arg : string) (w : World) :
  parse_rewrite_signum arg w =
    if (occurrences ":" arg =? 1)%nat
    then (Halt (Raised TypeError), w)
    else (Ret tt, emits [Log ERROR MsgIncorrectRewrite] w).
Proof.
  rewrite parse_rewrite_signum_eq.
  pose proof (split_on_length ":" arg) as Hlen.
  destruct (split_on ":" arg) as [|a [|b [|c l]]]; simpl in Hlen;
    destruct (Nat.eqb_spec (occurrences ":" arg) 1); done || lia.
Qed.

(** X26. The module's [test_rewrite_parsing] raises TypeError in every
    state, and leaves the state as it was. *)
Theorem test_rewrite_parsing_always_raises (w : World) :
  test_rewrite_parsing w = (Halt (Raised TypeError), w).
Proof.
  unfold test_rewrite_parsing, bind. by rewrite parse_rewrite_signum_eq.
Qed.
